(** * Transformer utilities: masks, greedy decoding and translation

    A shallow embedding of [src/utils/transformer_utils.py].

    Tensors are nested lists, outermost dimension first.  Token ids are
    integers ([Z]).  The mask tensors of the source are [float32] tensors
    whose entries are only ever [0.0] and [1.0]; they are represented by the
    integers [0] and [1], on which the operations the source applies to them
    ([tf.cast] of a boolean, [1 - x], [tf.maximum]) are exact. *)

From stdpp Require Import base list strings gmap.
From Stdlib Require Import ZArith Lia.

Local Open Scope Z_scope.

(** ** Tensors as nested lists *)

Module Tensor.

Abbreviation T1 A := (list A) (only parsing).
Abbreviation T2 A := (list (list A)) (only parsing).
Abbreviation T3 A := (list (list (list A))) (only parsing).
Abbreviation T4 A := (list (list (list (list A)))) (only parsing).

(** [tf.shape(t)[1]] of a rank-2 tensor: the common length of its rows. *)
Definition shape1 {A} (t : T2 A) : nat :=
  match t with
  | [] => 0%nat
  | row :: _ => length row
  end.

(** Nested lists that are tensors of shape [(_, n)]. *)
Definition rectangular {A} (n : nat) (t : T2 A) : Prop :=
  Forall (λ row, length row = n) t.

Definition entry2 {A} (t : T2 A) (i j : nat) : option A :=
  row ← t !! i; row !! j.

Definition entry4 {A} (t : T4 A) (b h i j : nat) : option A :=
  t_b ← t !! b; t_bh ← t_b !! h; entry2 t_bh i j.

(** [tf.math.equal(t, c)] on a rank-2 tensor and a scalar. *)
Definition tf_equal (t : T2 Z) (c : Z) : T2 bool :=
  (λ row : list Z, (λ x, bool_decide (x = c)) <$> row) <$> t.

(** [tf.cast(t, tf.float32)] of a boolean tensor. *)
Definition tf_cast_float (t : T2 bool) : T2 Z :=
  (λ row : list bool, (λ b : bool, if b then 1 else 0) <$> row) <$> t.

(** [t[:, tf.newaxis, tf.newaxis, :]] *)
Definition newaxis_1_2 {A} (t : T2 A) : T4 A :=
  (λ row : list A, [[row]]) <$> t.

(** [tf.ones((n, m))] *)
Definition tf_ones (n m : nat) : T2 Z :=
  replicate n (replicate m 1).

(** [tf.linalg.band_part(input, num_lower, num_upper)]: entry [(m, n)] is
    kept when [(num_lower < 0 || m - n <= num_lower) &&
    (num_upper < 0 || n - m <= num_upper)] and zeroed otherwise. *)
Definition in_band (num_lower num_upper : Z) (m n : nat) : bool :=
  ((num_lower <? 0) || (Z.of_nat m - Z.of_nat n <=? num_lower))
  && ((num_upper <? 0) || (Z.of_nat n - Z.of_nat m <=? num_upper)).

Definition tf_band_part (input : T2 Z) (num_lower num_upper : Z) : T2 Z :=
  imap (λ m (row : list Z),
          imap (λ n x, if in_band num_lower num_upper m n then x else 0) row)
       input.

(** [c - t] for a scalar [c]. *)
Definition scalar_sub (c : Z) (t : T2 Z) : T2 Z :=
  (λ row : list Z, (λ x, c - x) <$> row) <$> t.

(** Broadcasting of one dimension: a dimension of size one is stretched to
    the size of the other operand; dimensions of equal size are paired.
    (TensorFlow raises on any other pair of sizes; the callers below only
    combine tensors built from one and the same sequence length.) *)
Definition bcast {A B C} (f : A → B → C) (xs : list A) (ys : list B) : list C :=
  match xs, ys with
  | [x], _ => f x <$> ys
  | _, [y] => (λ x, f x y) <$> xs
  | _, _ => zip_with f xs ys
  end.

(** [tf.maximum(a, b)] of a rank-4 tensor [a] and a rank-2 tensor [b]:
    the two trailing dimensions are broadcast against each other, the two
    leading dimensions are those of [a]. *)
Definition tf_maximum (a : T4 Z) (b : T2 Z) : T4 Z :=
  (λ a_b : T3 Z, (λ a_h : T2 Z, bcast (bcast Z.max) a_h b) <$> a_b) <$> a.

(** [tf.expand_dims(t, 0)] *)
Definition tf_expand_dims {A} (t : T1 A) : T2 A := [t].

End Tensor.
Import Tensor.

(** ** Mask construction *)

(** [create_padding_mask(seq)]: shape [(batch_size, 1, 1, seq_len)]. *)
Definition create_padding_mask (seq : T2 Z) : T4 Z :=
  let seq := tf_cast_float (tf_equal seq 0) in
  newaxis_1_2 seq.

(** [create_look_ahead_mask(size)]: shape [(seq_len, seq_len)]. *)
Definition create_look_ahead_mask (size : nat) : T2 Z :=
  let mask := scalar_sub 1 (tf_band_part (tf_ones size size) (-1) 0) in
  mask.

(** [create_masks(inp, tar)] *)
Definition create_masks (inp tar : T2 Z) : T4 Z * T4 Z * T4 Z :=
  let enc_padding_mask := create_padding_mask inp in
  let dec_padding_mask := create_padding_mask inp in
  let look_ahead_mask := create_look_ahead_mask (shape1 tar) in
  let dec_target_padding_mask := create_padding_mask tar in
  let combined_mask := tf_maximum dec_target_padding_mask look_ahead_mask in
  (enc_padding_mask, combined_mask, dec_padding_mask).

(** ** Effects: exceptions and the trace of calls to the collaborators

    The tokenizers, the model and the plotting library are collaborators of
    the functions below.  A computation yields a value or raises, and records
    every call it makes to a collaborator, in order. *)

Inductive exn : Type :=
| UnboundLocalError (name : string)
| InvalidArgumentError (op : string)
| ValueError (msg : string)
| KeyError (key : string).

Inductive result (A : Type) : Type :=
| Ok (a : A)
| Raise (e : exn).
Arguments Ok {A} a.
Arguments Raise {A} e.

(** Which of the two tokenizers a call goes to. *)
Inductive side : Type := Source | Target.

Inductive event : Type :=
| Encode (tok : side) (text : string)
| Decode (tok : side) (ids : list Z)
| Invoke (encoder_input output : T2 Z) (training : bool)
         (enc_padding_mask combined_mask dec_padding_mask : T4 Z)
| PltFigure
| PltAxes (num xticks yticks : nat) (xticklabels yticklabels : list string)
| PltShow.

Definition M (A : Type) : Type := (result A * list event)%type.

Definition value {A} (m : M A) : result A := fst m.
Definition trace {A} (m : M A) : list event := snd m.

Definition raise {A} (e : exn) : M A := (Raise e, []).
Definition emit (e : event) : M unit := (Ok tt, [e]).

#[global] Instance M_ret : MRet M := λ A a, (Ok a, []).
#[global] Instance M_bind : MBind M := λ A B f m,
  match m with
  | (Ok a, t) => let '(r, t') := f a in (r, t ++ t')
  | (Raise e, t) => (Raise e, t)
  end.

Fixpoint mapM {A B} (f : A → M B) (l : list A) : M (list B) :=
  match l with
  | [] => mret []
  | x :: l' => y ← f x; ys ← mapM f l'; mret (y :: ys)
  end.

(** [for x in l: body(x)] *)
Fixpoint for_each {A} (l : list A) (body : A → M unit) : M unit :=
  match l with
  | [] => mret tt
  | x :: l' => _ ← body x; for_each l' body
  end.

(** ** Collaborators *)

(** The interface of [tfds.features.text.SubwordTextEncoder] that the source
    uses. *)
Record SubwordTextEncoder : Type := {
  vocab_size : Z;
  encode : string → list Z;
  decode : list Z → string
}.

Definition tok_encode (tok : side) (t : SubwordTextEncoder) (text : string) : M (list Z) :=
  (Ok (encode t text), [Encode tok text]).

Definition tok_decode (tok : side) (t : SubwordTextEncoder) (ids : list Z) : M string :=
  (Ok (decode t ids), [Decode tok ids]).

(** Logits are [float32] numbers; only their comparison is used. *)
Class Logit (logit : Type) : Type := logit_ltb : logit → logit → bool.

#[global] Instance Z_logit : Logit Z := Z.ltb.

(** The attention weights: a dictionary from layer names to tensors of shape
    [(batch_size, num_heads, seq_len_q, seq_len_k)]. *)
Abbreviation Attention weight := (gmap string (T4 weight)).

(** The model as a callable:
    [transformer(inp, tar, training, enc_padding_mask, look_ahead_mask,
    dec_padding_mask)] returns the predictions, of shape
    [(batch_size, seq_len, vocab_size)], and the attention weights. *)
Definition Transformer (logit weight : Type) : Type :=
  T2 Z → T2 Z → bool → T4 Z → T4 Z → T4 Z → T3 logit * Attention weight.

Definition call {logit weight} (transformer : Transformer logit weight)
    (inp tar : T2 Z) (training : bool)
    (enc_padding_mask look_ahead_mask dec_padding_mask : T4 Z)
  : M (T3 logit * Attention weight) :=
  (Ok (transformer inp tar training enc_padding_mask look_ahead_mask dec_padding_mask),
   [Invoke inp tar training enc_padding_mask look_ahead_mask dec_padding_mask]).

(** ** Tensor operations of the decode loop *)

(** [t[:, -1:, :]] *)
Definition slice_last {A} (t : T3 A) : T3 A :=
  (λ t_b : T2 A, drop (length t_b - 1) t_b) <$> t.

Section Argmax.
Context {logit : Type} `{Logit logit}.

(** The index of the first maximal entry of [l], given the best entry seen
    so far and its index. *)
Fixpoint argmax_from (best : logit) (best_i i : nat) (l : list logit) : nat :=
  match l with
  | [] => best_i
  | x :: l' =>
      if logit_ltb best x then argmax_from x i (S i) l'
      else argmax_from best best_i (S i) l'
  end.

(** The reduction raises on an empty axis. *)
Definition argmax_row (row : list logit) : M Z :=
  match row with
  | [] => raise (InvalidArgumentError "ArgMax")
  | x :: l => mret (Z.of_nat (argmax_from x 0 1 l))
  end.

(** [tf.argmax(t, axis=-1)], an [int64] tensor. *)
Definition tf_argmax (t : T3 logit) : M (T2 Z) :=
  mapM (mapM argmax_row) t.
End Argmax.

(** [tf.cast(t, tf.int32)] of an [int64] tensor keeps the low 32 bits. *)
Definition wrap_int32 (z : Z) : Z := (z + 2 ^ 31) mod 2 ^ 32 - 2 ^ 31.

Definition tf_cast_int32 (t : T2 Z) : T2 Z :=
  (λ row : list Z, wrap_int32 <$> row) <$> t.

(** The truth value of a tensor in an [if]: that of its only element; a
    tensor with several elements, or with none, has no truth value. *)
Definition tensor_truth (t : T2 bool) : M bool :=
  match concat t with
  | [b] => mret b
  | _ => raise (ValueError "truth value of a tensor")
  end.

(** [tf.concat([a, b], axis=-1)] *)
Definition tf_concat (a b : T2 Z) : M (T2 Z) :=
  if decide (length a = length b) then mret (zip_with app a b)
  else raise (InvalidArgumentError "ConcatV2").

(** [tf.squeeze(t, axis=0)] *)
Definition tf_squeeze {A} (t : list A) : M A :=
  match t with
  | [x] => mret x
  | _ => raise (InvalidArgumentError "Squeeze")
  end.

(** Reading a local variable that may not have been assigned. *)
Definition py_local {A} (name : string) (v : option A) : M A :=
  match v with
  | Some a => mret a
  | None => raise (UnboundLocalError name)
  end.

(** [d[key]] *)
Definition dict_get {V} (d : gmap string V) (key : string) : M V :=
  match d !! key with
  | Some v => mret v
  | None => raise (KeyError key)
  end.

(** ** The decode loop *)

Section Evaluate.
Context {logit weight : Type} `{Logit logit}.

(** One pass through the body of the loop of [evaluate] up to the
    computation of [predicted_id], a tensor of shape [(batch_size, 1)]. *)
Definition predict (transformer : Transformer logit weight)
    (encoder_input output : T2 Z) : M (T2 Z * Attention weight) :=
  let '(enc_padding_mask, combined_mask, dec_padding_mask) :=
    create_masks encoder_input output in
  '(predictions, attention_weights) ←
    call transformer encoder_input output false
         enc_padding_mask combined_mask dec_padding_mask;
  let predictions := slice_last predictions in
  am ← tf_argmax predictions;
  let predicted_id := tf_cast_int32 am in
  mret (predicted_id, attention_weights).

(** [for i in range(n): ...] followed by the final [return]; the variable
    [attention_weights] is assigned by the body only. *)
Fixpoint evaluate_loop (tokenizer_target : SubwordTextEncoder)
    (transformer : Transformer logit weight) (encoder_input : T2 Z)
    (n : nat) (output : T2 Z) (attention_weights : option (Attention weight))
  : M (list Z * Attention weight) :=
  match n with
  | O =>
      out ← tf_squeeze output;
      attention_weights ← py_local "attention_weights" attention_weights;
      mret (out, attention_weights)
  | S n' =>
      '(predicted_id, attention_weights) ← predict transformer encoder_input output;
      stop ← tensor_truth (tf_equal predicted_id (vocab_size tokenizer_target + 1));
      if stop : bool then
        out ← tf_squeeze output;
        mret (out, attention_weights)
      else
        output ← tf_concat output predicted_id;
        evaluate_loop tokenizer_target transformer encoder_input
                      n' output (Some attention_weights)
  end.

(** [evaluate(inp_sentence, tokenizer_source, tokenizer_target,
    max_length_pred, transformer)] *)
Definition evaluate (inp_sentence : string)
    (tokenizer_source tokenizer_target : SubwordTextEncoder)
    (max_length_pred : Z) (transformer : Transformer logit weight)
  : M (list Z * Attention weight) :=
  let start_token := [vocab_size tokenizer_source] in
  let end_token := [vocab_size tokenizer_source + 1] in
  ids ← tok_encode Source tokenizer_source inp_sentence;
  let inp_sentence := start_token ++ ids ++ end_token in
  let encoder_input := tf_expand_dims inp_sentence in
  let decoder_input := [vocab_size tokenizer_target] in
  let output := tf_expand_dims decoder_input in
  evaluate_loop tokenizer_target transformer encoder_input
                (Z.to_nat max_length_pred) output None.

(** ** Plotting and translation *)

(** [fig.add_subplot(2, 4, num)]: the grid has eight cells. *)
Definition add_subplot (num : nat) : M unit :=
  if decide (1 ≤ num ≤ 8)%nat then mret tt
  else raise (ValueError "num must be 1 <= num <= 8").

(** [plot_attention_weights(attention, sentence, result, layer,
    tokenizer_source, tokenizer_target)]; of the calls on an axes only the
    ticks and their labels are recorded. *)
Definition plot_attention_weights (attention : Attention weight)
    (sentence : string) (result : list Z) (layer : string)
    (tokenizer_source tokenizer_target : SubwordTextEncoder) : M unit :=
  _ ← emit PltFigure;
  sentence ← tok_encode Source tokenizer_source sentence;
  att ← dict_get attention layer;
  attention ← tf_squeeze att;
  _ ← for_each (seq 0 (length attention)) (λ head,
        _ ← add_subplot (head + 1);
        xs ← mapM (λ i, tok_decode Source tokenizer_source [i]) sentence;
        ys ← mapM (λ i, tok_decode Target tokenizer_target [i])
                  (filter (λ i, i < vocab_size tokenizer_target) result);
        emit (PltAxes (head + 1) (length sentence + 2) (length result)
                      (["<start>"] ++ xs ++ ["<end>"]) ys));
  emit PltShow.

(** [translate(inp_sentence, tokenizer_source, tokenizer_target,
    max_length_pred, transformer, plot)] *)
Definition translate (inp_sentence : string)
    (tokenizer_source tokenizer_target : SubwordTextEncoder)
    (max_length_pred : Z) (transformer : Transformer logit weight)
    (plot : string) : M string :=
  '(result, attention_weights) ←
    evaluate inp_sentence tokenizer_source tokenizer_target
             max_length_pred transformer;
  predicted_sentence ←
    tok_decode Target tokenizer_target
               (filter (λ i, i < vocab_size tokenizer_target) result);
  _ ← (if bool_decide (plot = EmptyString) then mret tt
       else plot_attention_weights attention_weights inp_sentence result plot
                                   tokenizer_source tokenizer_target);
  mret predicted_sentence.

End Evaluate.

(** ** Vocabulary of the statements about the decode loop *)

#[global] Instance side_eq_dec : EqDecision side.
Proof. solve_decision. Defined.

Definition is_invoke (e : event) : bool :=
  match e with
  | Invoke _ _ _ _ _ _ => true
  | _ => false
  end.

(** The number of model invocations in a trace. *)
Definition model_calls (t : list event) : nat :=
  length (filter (λ e, Is_true (is_invoke e)) t).

(** The arguments of the calls to [decode] of the tokenizer [tok], in order. *)
Definition decode_calls (tok : side) (t : list event) : list (list Z) :=
  omap (λ e, match e with
             | Decode tok' ids => if decide (tok' = tok) then Some ids else None
             | _ => None
             end) t.

(** The encoder input that [evaluate] builds from a sentence. *)
Definition encoder_input_of (tokenizer_source : SubwordTextEncoder)
    (inp_sentence : string) : T2 Z :=
  tf_expand_dims ([vocab_size tokenizer_source]
                  ++ encode tokenizer_source inp_sentence
                  ++ [vocab_size tokenizer_source + 1]).

Section DecodeState.
Context {logit weight : Type} `{Logit logit}.
Variable tokenizer_target : SubwordTextEncoder.
Variable transformer : Transformer logit weight.
Variable encoder_input : T2 Z.

(** [at_iteration k row aw]: the loop of [evaluate] starts its iteration
    number [k] (from 0) with the decoder sequence [row] in [output] and
    with [aw] in [attention_weights] ([None] while it is unassigned). *)
Inductive at_iteration : nat → list Z → option (Attention weight) → Prop :=
| at_start :
    at_iteration 0 [vocab_size tokenizer_target] None
| at_next k row aw id aw' :
    at_iteration k row aw →
    value (predict transformer encoder_input [row]) = Ok ([[id]], aw') →
    id ≠ vocab_size tokenizer_target + 1 →
    at_iteration (S k) (row ++ [id]) (Some aw').

(** The shape of the predictions as far as the loop depends on it: for a
    batch of one non-empty decoder sequence the model returns a batch of
    one, with at least one position, whose last position has at least one
    logit. *)
Definition well_shaped : Prop :=
  ∀ (inp : T2 Z) (row : list Z) (training : bool)
    (enc_padding_mask look_ahead_mask dec_padding_mask : T4 Z),
    row ≠ [] →
    ∃ (rows : T2 logit) (x : logit) (l : list logit),
      (transformer inp [row] training
                   enc_padding_mask look_ahead_mask dec_padding_mask).1
      = [rows ++ [x :: l]].

(** The model never selects the end sentinel of the target vocabulary. *)
Definition never_ends : Prop :=
  ∀ (row : list Z) (id : Z) (aw : Attention weight),
    value (predict transformer encoder_input [row]) = Ok ([[id]], aw) →
    id ≠ vocab_size tokenizer_target + 1.

End DecodeState.

(** The model invocation that the loop of [evaluate] makes when its decoder
    input is [output]: inference mode, and the three masks of
    [create_masks]. *)
Definition invocation (encoder_input output : T2 Z) : event :=
  let '(enc_padding_mask, combined_mask, dec_padding_mask) :=
    create_masks encoder_input output in
  Invoke encoder_input output false
         enc_padding_mask combined_mask dec_padding_mask.

(** A model whose logits, at the last position of a batch of one non-empty
    decoder sequence, range over at least one and at most [width] ids. *)
Definition logits_width {logit weight : Type} (width : nat)
    (transformer : Transformer logit weight) : Prop :=
  ∀ (inp : T2 Z) (row : list Z) (training : bool)
    (enc_padding_mask look_ahead_mask dec_padding_mask : T4 Z),
    row ≠ [] →
    ∃ (rows : T2 logit) (last : list logit),
      (transformer inp [row] training
                   enc_padding_mask look_ahead_mask dec_padding_mask).1
      = [rows ++ [last]]
      ∧ (0 < length last ≤ width)%nat.

Definition is_axes (e : event) : bool :=
  match e with
  | PltAxes _ _ _ _ _ => true
  | _ => false
  end.

(** The number of axes drawn in a trace. *)
Definition axes_count (t : list event) : nat :=
  length (filter (λ e, Is_true (is_axes e)) t).

(** What [plot_attention_weights] puts on an axes: the ticks and the labels
    of an axes event, for the sentence and the result ids plotted. *)
Definition axes_labelled (tokenizer_source tokenizer_target : SubwordTextEncoder)
    (sentence : string) (result : list Z) (e : event) : Prop :=
  match e with
  | PltAxes num xticks yticks xticklabels yticklabels =>
      (1 ≤ num ≤ 8)%nat
      ∧ xticks = length xticklabels
      ∧ yticks = length result
      ∧ xticklabels
        = ["<start>"]
          ++ ((λ i, decode tokenizer_source [i])
                <$> encode tokenizer_source sentence)
          ++ ["<end>"]
      ∧ yticklabels
        = (λ i, decode tokenizer_target [i])
            <$> filter (λ i, i < vocab_size tokenizer_target) result
  | _ => True
  end.

(** ** Stub collaborators

    Small tokenizers and models with integer logits, on which the functions
    above can be run. *)

Module Stub.

(** A tokenizer with one id per character code, reduced modulo the
    vocabulary size; decoding writes the ids as characters. *)
Definition tokenizer (v : Z) : SubwordTextEncoder := {|
  vocab_size := v;
  encode := λ text, (λ c, Z.of_nat (Ascii.nat_of_ascii c) `mod` v)
                      <$> String.list_ascii_of_string text;
  decode := λ ids, String.string_of_list_ascii
                     ((λ i, Ascii.ascii_of_nat (Z.to_nat i + 97)) <$> ids)
|}.

(** Logits of [size] entries that favour the entry [id]. *)
Definition one_hot (size : nat) (id : Z) : list Z :=
  (λ j : nat, if bool_decide (Z.of_nat j = id) then 1 else 0) <$> seq 0 size.

(** Attention weights that depend on the decoder input: one layer, one
    head, whose single row is the decoder input itself. *)
Definition attention_of (tar : T2 Z) : Attention Z :=
  {[ "decoder_layer1_block2" := (λ row : list Z, [[row]]) <$> tar ]}.

(** A model that follows a script: at the decoder position [pos] it
    favours the id [script !! pos], and the id [0] past the end of the
    script. *)
Definition scripted (size : nat) (script : list Z) : Transformer Z Z :=
  λ inp tar training enc_padding_mask look_ahead_mask dec_padding_mask,
    ((λ row : list Z,
        imap (λ pos _, one_hot size (default 0 (script !! pos))) row) <$> tar,
     attention_of tar).

(** A model that favours one and the same id at every position. *)
Definition constant (size : nat) (id : Z) : Transformer Z Z :=
  λ inp tar training enc_padding_mask look_ahead_mask dec_padding_mask,
    ((λ row : list Z, (λ _, one_hot size id) <$> row) <$> tar,
     attention_of tar).

(** A model whose predictions have an empty vocabulary axis. *)
Definition no_logits : Transformer Z Z :=
  λ inp tar training enc_padding_mask look_ahead_mask dec_padding_mask,
    ((λ row : list Z, (λ _, []) <$> row) <$> tar, attention_of tar).

End Stub.

(** * Properties *)

(** ** Masks *)

Example create_padding_mask_ex :
  create_padding_mask [[7; 0; 3; 0]; [0; 0; 1; 2]]
  = [[[[0; 1; 0; 1]]]; [[[1; 1; 0; 0]]]].
Proof. reflexivity. Qed.

Example create_look_ahead_mask_ex :
  create_look_ahead_mask 3 = [[0; 1; 1]; [0; 0; 1]; [0; 0; 0]].
Proof. reflexivity. Qed.

Example create_masks_ex :
  create_masks [[4; 9; 0]] [[5; 0; 6]]
  = ([[[[0; 0; 1]]]],
     [[[[0; 1; 1]; [0; 1; 1]; [0; 1; 0]]]],
     [[[[0; 0; 1]]]]).
Proof. reflexivity. Qed.

Section MaskFacts.

Lemma padding_mask_lookup (s : T2 Z) (b : nat) :
  create_padding_mask s !! b
  = (λ row : list Z, [[(λ x, if bool_decide (x = 0) then 1 else 0) <$> row]])
      <$> s !! b.
Proof.
  unfold create_padding_mask, newaxis_1_2, tf_cast_float, tf_equal.
  rewrite !list_lookup_fmap.
  destruct (s !! b) as [row|]; simpl; [|done].
  by rewrite <- list_fmap_compose.
Qed.

Lemma padding_mask_entry (s : T2 Z) (b i : nat) (row : list Z) (x : Z) :
  s !! b = Some row → row !! i = Some x →
  entry4 (create_padding_mask s) b 0 0 i
  = Some (if bool_decide (x = 0) then 1 else 0).
Proof.
  intros Hb Hi. unfold entry4, entry2.
  rewrite padding_mask_lookup, Hb. simpl.
  by rewrite list_lookup_fmap, Hi.
Qed.

Lemma look_ahead_mask_row (n i : nat) :
  (i < n)%nat →
  create_look_ahead_mask n !! i
  = Some ((λ j : nat, if bool_decide (i < j)%nat then 1 else 0) <$> seq 0 n).
Proof.
  intros Hi. unfold create_look_ahead_mask, scalar_sub, tf_band_part, tf_ones.
  rewrite list_lookup_fmap, list_lookup_imap, lookup_replicate_2 by done.
  simpl. f_equal. apply list_eq. intros j.
  rewrite !list_lookup_fmap, list_lookup_imap.
  destruct (decide (j < n)%nat) as [Hj|Hj].
  - rewrite lookup_replicate_2, lookup_seq_lt by done. simpl. f_equal.
    unfold in_band. simpl.
    case_bool_decide; destruct (Z.leb_spec (Z.of_nat j - Z.of_nat i) 0);
      simpl; lia.
  - rewrite (proj1 (lookup_replicate_None _ _ _)), lookup_seq_ge by lia.
    done.
Qed.

Lemma look_ahead_mask_entry (n i j : nat) :
  (i < n)%nat → (j < n)%nat →
  entry2 (create_look_ahead_mask n) i j
  = Some (if bool_decide (i < j)%nat then 1 else 0).
Proof.
  intros Hi Hj. unfold entry2. rewrite look_ahead_mask_row by done. simpl.
  by rewrite list_lookup_fmap, lookup_seq_lt.
Qed.

Lemma look_ahead_mask_shape (n : nat) :
  length (create_look_ahead_mask n) = n
  ∧ rectangular n (create_look_ahead_mask n).
Proof.
  split.
  - unfold create_look_ahead_mask, scalar_sub, tf_band_part, tf_ones.
    by rewrite length_fmap, length_imap, length_replicate.
  - apply Forall_lookup. intros i row Hrow.
    assert (i < n)%nat as Hi.
    { apply lookup_lt_Some in Hrow.
      unfold create_look_ahead_mask, scalar_sub, tf_band_part, tf_ones in Hrow.
      by rewrite length_fmap, length_imap, length_replicate in Hrow. }
    rewrite look_ahead_mask_row in Hrow by done.
    injection Hrow as <-. by rewrite length_fmap, length_seq.
Qed.

(** Broadcasting a single row against the rows of a square matrix whose
    rows have the length of that row. *)
Lemma bcast_row_lookup (f : Z → Z → Z) (row : list Z) (m : T2 Z)
      (i j : nat) (mrow : list Z) (x y : Z) :
  m !! i = Some mrow → length mrow = length row →
  row !! j = Some x → mrow !! j = Some y →
  entry2 (bcast (bcast f) [row] m) i j = Some (f x y).
Proof.
  intros Hm Hlen Hx Hy. unfold entry2. simpl.
  rewrite list_lookup_fmap, Hm. simpl.
  unfold bcast.
  destruct row as [|x0 [|x1 row']], mrow as [|y0 [|y1 mrow']];
    simplify_eq/=; try done.
  - destruct j; simplify_eq/=; done.
  - change (zip_with f (x0 :: x1 :: row') (y0 :: y1 :: mrow') !! j = Some (f x y)).
    by rewrite lookup_zip_with, Hx; simpl; rewrite Hy.
Qed.

End MaskFacts.

Lemma rectangular_shape1 {A} (n b : nat) (t : T2 A) (row : list A) :
  rectangular n t → t !! b = Some row → length row = n ∧ shape1 t = n.
Proof.
  intros Hrect Hb. split.
  - by apply (Forall_lookup_1 _ _ _ _ Hrect Hb).
  - destruct t as [|row0 t]; [done|]. simpl.
    by apply (Forall_lookup_1 _ _ 0%nat row0 Hrect).
Qed.

(** C5.  For every integer sequence batch [s], every sequence [row] of the
    batch (at index [b]) and every position [i], the padding mask has value 1
    at position [i] if and only if [row[i] == 0], and value 0 otherwise.  The
    mask has one entry per sequence of the batch, each of shape [1 x 1 x
    seq_len]: two broadcast dimensions of size one, for the heads and the
    query positions.  [create_padding_mask] is a function of its argument
    alone: it makes no call to a collaborator and has no trace. *)
Theorem create_padding_mask_spec (s : T2 Z) (b : nat) (row : list Z) :
  s !! b = Some row →
  length (create_padding_mask s) = length s
  ∧ ∃ mrow : list Z,
      create_padding_mask s !! b = Some [[mrow]]
      ∧ length mrow = length row
      ∧ ∀ (i : nat) (x : Z), row !! i = Some x →
          entry4 (create_padding_mask s) b 0 0 i = mrow !! i
          ∧ ∃ v : Z, mrow !! i = Some v ∧ (v = 1 ↔ x = 0) ∧ (v = 0 ↔ x ≠ 0).
Proof.
  intros Hb. split.
  { unfold create_padding_mask, newaxis_1_2, tf_cast_float, tf_equal.
    by rewrite !length_fmap. }
  eexists. split; [by rewrite padding_mask_lookup, Hb|].
  split; [by rewrite length_fmap|].
  intros i x Hi. split.
  { unfold entry4, entry2. by rewrite padding_mask_lookup, Hb. }
  rewrite list_lookup_fmap, Hi. simpl. eexists. split; [done|].
  case_bool_decide; split; split; intros; try done; lia.
Qed.

Lemma create_padding_mask_spec_witness :
  [[7; 0; 3]; [0; 4; 0]] !! 1%nat = Some [0; 4; 0]
  ∧ length (create_padding_mask [[7; 0; 3]; [0; 4; 0]]) = 2%nat
  ∧ ∃ mrow : list Z,
      create_padding_mask [[7; 0; 3]; [0; 4; 0]] !! 1%nat = Some [[mrow]]
      ∧ length mrow = 3%nat
      ∧ ∀ (i : nat) (x : Z), [0; 4; 0] !! i = Some x →
          entry4 (create_padding_mask [[7; 0; 3]; [0; 4; 0]]) 1 0 0 i = mrow !! i
          ∧ ∃ v : Z, mrow !! i = Some v ∧ (v = 1 ↔ x = 0) ∧ (v = 0 ↔ x ≠ 0).
Proof.
  split; [reflexivity|].
  apply (create_padding_mask_spec [[7; 0; 3]; [0; 4; 0]] 1 [0; 4; 0]).
  reflexivity.
Defined.

(** C6.  For every size [n] and all indices [i, j < n], the matrix returned
    by [create_look_ahead_mask n], of shape [n x n], has entry 1 at [(i, j)]
    if and only if [j > i], and entry 0 otherwise: the query position [i] may
    attend to the key positions [j <= i] only. *)
Theorem create_look_ahead_mask_spec (n i j : nat) :
  (i < n)%nat → (j < n)%nat →
  length (create_look_ahead_mask n) = n
  ∧ rectangular n (create_look_ahead_mask n)
  ∧ ∃ v : Z, entry2 (create_look_ahead_mask n) i j = Some v
      ∧ (v = 1 ↔ (j > i)%nat) ∧ (v = 0 ↔ (j ≤ i)%nat).
Proof.
  intros Hi Hj. destruct (look_ahead_mask_shape n) as [Hlen Hrect].
  split; [done|]. split; [done|].
  rewrite look_ahead_mask_entry by done. eexists. split; [done|].
  case_bool_decide; split; split; intros; try done; lia.
Qed.

Lemma create_look_ahead_mask_spec_witness :
  ((1 < 4)%nat ∧ (2 < 4)%nat)
  ∧ length (create_look_ahead_mask 4) = 4%nat
  ∧ rectangular 4 (create_look_ahead_mask 4)
  ∧ ∃ v : Z, entry2 (create_look_ahead_mask 4) 1 2 = Some v
      ∧ (v = 1 ↔ (2 > 1)%nat) ∧ (v = 0 ↔ (2 ≤ 1)%nat).
Proof.
  split; [lia|]. apply (create_look_ahead_mask_spec 4 1 2); lia.
Defined.

(** C4.  For every encoder input [inp] and decoder input [tar] (a batch of
    sequences of length [n]), [create_masks] returns the padding mask of
    [inp] both as the encoder self-attention mask and as the cross-attention
    (decoder) padding mask, and as combined mask the element-wise maximum of
    the padding mask of [tar] and the look-ahead mask of size [n]: at
    [(b, 0, i, j)] it is the maximum of the padding mask at [(b, 0, 0, j)]
    and the look-ahead mask at [(i, j)], hence 1 if and only if one of the
    two is 1, that is if and only if [tar[b][j] == 0] or [j > i]. *)
Theorem create_masks_spec (inp tar : T2 Z) (n b i j : nat) (row : list Z) (x : Z) :
  rectangular n tar → tar !! b = Some row → (i < n)%nat → row !! j = Some x →
  ∃ enc_padding_mask combined_mask dec_padding_mask : T4 Z,
    create_masks inp tar = (enc_padding_mask, combined_mask, dec_padding_mask)
    ∧ enc_padding_mask = create_padding_mask inp
    ∧ dec_padding_mask = create_padding_mask inp
    ∧ combined_mask
      = tf_maximum (create_padding_mask tar) (create_look_ahead_mask n)
    ∧ ∃ p l c : Z,
        entry4 (create_padding_mask tar) b 0 0 j = Some p
        ∧ entry2 (create_look_ahead_mask n) i j = Some l
        ∧ entry4 combined_mask b 0 i j = Some c
        ∧ c = Z.max p l
        ∧ (c = 1 ↔ p = 1 ∨ l = 1)
        ∧ (c = 0 ↔ p = 0 ∧ l = 0)
        ∧ (c = 1 ↔ x = 0 ∨ (j > i)%nat).
Proof.
  intros Hrect Hb Hi Hj.
  destruct (rectangular_shape1 n b tar row Hrect Hb) as [Hlen Hshape].
  assert (j < n)%nat as Hjn by (apply lookup_lt_Some in Hj; lia).
  unfold create_masks. rewrite Hshape.
  do 3 eexists. split; [done|]. do 3 (split; [done|]).
  exists (if bool_decide (x = 0) then 1 else 0),
         (if bool_decide (i < j)%nat then 1 else 0).
  eexists. split; [by apply (padding_mask_entry tar b j row x)|].
  split; [by apply look_ahead_mask_entry|].
  split.
  { unfold entry4, tf_maximum.
    rewrite list_lookup_fmap, padding_mask_lookup, Hb. simpl.
    apply (bcast_row_lookup Z.max _ _ i j
             ((λ k : nat, if bool_decide (i < k)%nat then 1 else 0) <$> seq 0 n)).
    - by apply look_ahead_mask_row.
    - by rewrite !length_fmap, length_seq.
    - by rewrite list_lookup_fmap, Hj.
    - by rewrite list_lookup_fmap, lookup_seq_lt. }
  repeat case_bool_decide; repeat split; intros; try lia;
    try (destruct_or?; destruct_and?; lia).
Qed.

Lemma create_masks_spec_witness :
  (rectangular 3 [[5; 0; 6]; [8; 9; 0]]
   ∧ [[5; 0; 6]; [8; 9; 0]] !! 1%nat = Some [8; 9; 0]
   ∧ (0 < 3)%nat ∧ [8; 9; 0] !! 2%nat = Some 0)
  ∧ ∃ enc_padding_mask combined_mask dec_padding_mask : T4 Z,
      create_masks [[4; 9; 0]; [1; 0; 0]] [[5; 0; 6]; [8; 9; 0]]
      = (enc_padding_mask, combined_mask, dec_padding_mask)
      ∧ enc_padding_mask = create_padding_mask [[4; 9; 0]; [1; 0; 0]]
      ∧ dec_padding_mask = create_padding_mask [[4; 9; 0]; [1; 0; 0]]
      ∧ combined_mask
        = tf_maximum (create_padding_mask [[5; 0; 6]; [8; 9; 0]])
                     (create_look_ahead_mask 3)
      ∧ ∃ p l c : Z,
          entry4 (create_padding_mask [[5; 0; 6]; [8; 9; 0]]) 1 0 0 2 = Some p
          ∧ entry2 (create_look_ahead_mask 3) 0 2 = Some l
          ∧ entry4 combined_mask 1 0 0 2 = Some c
          ∧ c = Z.max p l
          ∧ (c = 1 ↔ p = 1 ∨ l = 1)
          ∧ (c = 0 ↔ p = 0 ∧ l = 0)
          ∧ (c = 1 ↔ 0 = 0 ∨ (2 > 0)%nat).
Proof.
  assert (rectangular 3 [[5; 0; 6]; [8; 9; 0]]) as Hrect
    by (repeat constructor).
  split; [repeat split; [done|lia]|].
  apply (create_masks_spec [[4; 9; 0]; [1; 0; 0]] [[5; 0; 6]; [8; 9; 0]]
           3 1 0 2 [8; 9; 0] 0 Hrect); [reflexivity|lia|reflexivity].
Defined.

(** ** Computations and their traces *)

Lemma bind_ok {A B} (m : M A) (f : A → M B) (a : A) (t : list event) :
  m = (Ok a, t) → m ≫= f = (value (f a), t ++ trace (f a)).
Proof. intros ->. unfold mbind, M_bind, value, trace. by destruct (f a). Qed.

Lemma bind_ret {A B} (a : A) (f : A → M B) : mret a ≫= f = f a.
Proof. unfold mret, M_ret, mbind, M_bind. by destruct (f a). Qed.

Lemma bind_raise {A B} (m : M A) (f : A → M B) (e : exn) (t : list event) :
  m = (Raise e, t) → m ≫= f = (Raise e, t).
Proof. by intros ->. Qed.

Lemma bind_value_ok {A B} (m : M A) (f : A → M B) (b : B) :
  value (m ≫= f) = Ok b →
  ∃ a, value m = Ok a ∧ value (f a) = Ok b
       ∧ trace (m ≫= f) = trace m ++ trace (f a).
Proof.
  destruct m as [[a|e] t]; [|done].
  rewrite (bind_ok _ f a t eq_refl). simpl. eauto.
Qed.

Lemma bind_trace {A B} (m : M A) (f : A → M B) :
  trace (m ≫= f)
  = trace m ++ match value m with
               | Ok a => trace (f a)
               | Raise _ => []
               end.
Proof.
  destruct m as [[a|e] t].
  - by rewrite (bind_ok _ f a t eq_refl).
  - simpl. by rewrite app_nil_r.
Qed.

Lemma bind_value {A B} (m : M A) (f : A → M B) :
  value (m ≫= f)
  = match value m with
    | Ok a => value (f a)
    | Raise e => Raise e
    end.
Proof.
  destruct m as [[a|e] t]; [|done].
  by rewrite (bind_ok _ f a t eq_refl).
Qed.

Lemma model_calls_app (t1 t2 : list event) :
  model_calls (t1 ++ t2) = (model_calls t1 + model_calls t2)%nat.
Proof. unfold model_calls. by rewrite filter_app, length_app. Qed.

Section LoopFacts.
Context {logit weight : Type} `{Logit logit}.
Variable tokenizer_target : SubwordTextEncoder.
Variable transformer : Transformer logit weight.
Variable encoder_input : T2 Z.

Local Abbreviation end_id := (vocab_size tokenizer_target + 1).
Local Abbreviation loop := (evaluate_loop tokenizer_target transformer encoder_input).
Local Abbreviation step := (predict transformer encoder_input).
Local Abbreviation state := (at_iteration tokenizer_target transformer encoder_input).

Lemma mapM_argmax_trace (rows : T2 logit) :
  trace (mapM argmax_row rows) = [].
Proof.
  induction rows as [|row rows IH]; [done|]. simpl.
  destruct row as [|x l]; [done|].
  unfold mret, M_ret, mbind, M_bind. simpl.
  destruct (mapM argmax_row rows) as [[ys|e] t]; simpl in *; by subst.
Qed.

Lemma tf_argmax_trace (t : T3 logit) : trace (tf_argmax t) = [].
Proof.
  unfold tf_argmax. induction t as [|rows t IH]; [done|]. simpl.
  pose proof (mapM_argmax_trace rows) as Hrows.
  destruct (mapM argmax_row rows) as [[ys|e] tr]; simpl in *; subst; [|done].
  unfold mbind, M_bind.
  destruct (mapM (mapM argmax_row) t) as [[zs|e] tr]; simpl in *; by subst.
Qed.

(** Every pass through the loop body invokes the model exactly once. *)
Lemma predict_trace (output : T2 Z) :
  ∃ m1 m2 m3,
    create_masks encoder_input output = (m1, m2, m3)
    ∧ trace (step output) = [Invoke encoder_input output false m1 m2 m3].
Proof.
  unfold predict. destruct (create_masks encoder_input output) as [[m1 m2] m3].
  exists m1, m2, m3. split; [done|].
  unfold call, mbind, M_bind.
  destruct (transformer _ _ _ _ _ _) as [predictions aw].
  pose proof (tf_argmax_trace (slice_last predictions)) as Ht.
  destruct (tf_argmax (slice_last predictions)) as [[am|e] t];
    simpl in *; by subst.
Qed.

Lemma predict_calls (output : T2 Z) : model_calls (trace (step output)) = 1%nat.
Proof. destruct (predict_trace output) as (?&?&?&_&->). done. Qed.

Lemma predict_well_shaped (row : list Z) :
  well_shaped transformer → row ≠ [] →
  ∃ id aw, value (step [row]) = Ok ([[id]], aw).
Proof.
  intros Hshape Hrow. unfold predict.
  destruct (create_masks encoder_input [row]) as [[m1 m2] m3].
  destruct (Hshape encoder_input row false m1 m2 m3 Hrow) as (rows & x & l & Hp).
  unfold call, mbind, M_bind.
  destruct (transformer _ _ _ _ _ _) as [predictions aw]. simpl in Hp. subst.
  unfold slice_last. simpl.
  replace (length (rows ++ [x :: l]) - 1)%nat with (length rows)
    by (rewrite length_app; simpl; lia).
  rewrite drop_app_length. simpl. eauto.
Qed.

(** The loop stops at an iteration that selects the end sentinel. *)
Lemma loop_stop (n : nat) (row : list Z) (a : option (Attention weight))
      (aw : Attention weight) :
  value (step [row]) = Ok ([[end_id]], aw) →
  loop (S n) [row] a = (Ok (row, aw), trace (step [row])).
Proof.
  intros Hstep. simpl.
  destruct (step [row]) as [r t] eqn:E. simpl in Hstep. subst r.
  rewrite (bind_ok _ _ _ _ eq_refl). simpl.
  unfold tensor_truth. simpl. rewrite bool_decide_eq_true_2 by done.
  simpl. by rewrite !app_nil_r.
Qed.

(** The loop goes on after an iteration that selects another id. *)
Lemma loop_continue (n : nat) (row : list Z) (a : option (Attention weight))
      (id : Z) (aw : Attention weight) :
  value (step [row]) = Ok ([[id]], aw) → id ≠ end_id →
  loop (S n) [row] a
  = (value (loop n [row ++ [id]] (Some aw)),
     trace (step [row]) ++ trace (loop n [row ++ [id]] (Some aw))).
Proof.
  intros Hstep Hid. simpl.
  destruct (step [row]) as [r t] eqn:E. simpl in Hstep. subst r.
  rewrite (bind_ok _ _ _ _ eq_refl). simpl.
  unfold tensor_truth. simpl. rewrite bool_decide_eq_false_2 by done.
  simpl. unfold value, trace.
  by destruct (evaluate_loop _ _ _ _ _ _) as [r' t'].
Qed.

Lemma loop_exhausted (row : list Z) (aw : Attention weight) :
  loop 0 [row] (Some aw) = (Ok (row, aw), []).
Proof. done. Qed.

Lemma loop_unassigned (row : list Z) :
  loop 0 [row] None = (Raise (UnboundLocalError "attention_weights"), []).
Proof. done. Qed.

Lemma state_length (k : nat) (row : list Z) (a : option (Attention weight)) :
  state k row a → length row = S k.
Proof.
  induction 1 as [|k row a id aw' _ IH _ _]; [done|].
  rewrite length_app. simpl. lia.
Qed.

Lemma state_start_inv (row : list Z) (a : option (Attention weight)) :
  state 0 row a → row = [vocab_size tokenizer_target] ∧ a = None.
Proof. by inversion 1. Qed.

Lemma state_last (k : nat) (row : list Z) (a : option (Attention weight)) :
  state (S k) row a →
  ∃ row' a' id aw,
    state k row' a' ∧ row = row' ++ [id] ∧ a = Some aw
    ∧ value (step [row']) = Ok ([[id]], aw) ∧ id ≠ end_id.
Proof. inversion 1; subst. eauto 10. Qed.

(** The iterations before the one numbered [k] invoke the model [k] times
    and leave the rest of the loop to run from the state of iteration
    [k]. *)
Lemma loop_prefix (k : nat) (row : list Z) (a : option (Attention weight)) :
  state k row a →
  ∀ n, ∃ t,
    loop (k + n) [[vocab_size tokenizer_target]] None
    = (value (loop n [row] a), t ++ trace (loop n [row] a))
    ∧ model_calls t = k.
Proof.
  induction 1 as [|k row a id aw' _ IH Hstep Hid]; intros n.
  - exists []. split; [|done]. simpl. by destruct (loop n _ _).
  - destruct (IH (S n)) as (t & Hrun & Hcalls).
    exists (t ++ trace (step [row])). split.
    + replace (S k + n)%nat with (k + S n)%nat by lia.
      rewrite Hrun, (loop_continue n row a id aw' Hstep Hid). simpl.
      by rewrite app_assoc.
    + rewrite model_calls_app, predict_calls. lia.
Qed.

(** With a well-shaped model the loop either reaches an iteration that
    selects the end sentinel, or reaches any given iteration. *)
Lemma loop_progress (k : nat) :
  well_shaped transformer →
  (∃ j row a aw, (j < k)%nat ∧ state j row a
                 ∧ value (step [row]) = Ok ([[end_id]], aw))
  ∨ (∃ row a, state k row a).
Proof.
  intros Hshape. induction k as [|k [IH|(row & a & Hst)]].
  - right. do 2 eexists. constructor.
  - left. destruct IH as (j & row & a & aw & Hj & Hst & Hstep).
    exists j, row, a, aw. split; [lia|done].
  - assert (row ≠ []) as Hrow.
    { pose proof (state_length _ _ _ Hst). by destruct row. }
    destruct (predict_well_shaped row Hshape Hrow) as (id & aw & Hstep).
    destruct (decide (id = end_id)) as [->|Hid].
    + left. exists k, row, a, aw. split; [lia|done].
    + right. exists (row ++ [id]), (Some aw). by econstructor.
Qed.

(** A comparison tensor whose truth value is [false] comes from a single
    id, which differs from the id compared with. *)
Lemma tensor_truth_false (t : T2 Z) (c : Z) :
  value (tensor_truth (tf_equal t c)) = Ok false → Forall (λ r, c ∉ r) t.
Proof.
  unfold tensor_truth, tf_equal. intros Htruth.
  assert (concat ((λ row : list Z, (λ x, bool_decide (x = c)) <$> row) <$> t)
          = (λ x, bool_decide (x = c)) <$> concat t) as Hflat.
  { clear Htruth. induction t as [|r t IH]; [done|]. csimpl. by rewrite IH, fmap_app. }
  rewrite Hflat in Htruth.
  destruct (concat t) as [|x [|y l]] eqn:Hc; simplify_eq/=.
  apply Forall_forall. intros r Hr Hin.
  assert (c ∈ concat t) as Hcin.
  { apply list_elem_of_In, in_concat. exists r.
    by split; apply list_elem_of_In. }
  rewrite Hc in Hcin. apply list_elem_of_singleton in Hcin. subst x.
  by rewrite bool_decide_eq_true_2 in Htruth.
Qed.

Lemma zip_with_app_avoids (c : Z) (a b : T2 Z) :
  Forall (λ r, c ∉ r) a → Forall (λ r, c ∉ r) b →
  Forall (λ r, c ∉ r) (zip_with app a b).
Proof.
  intros Ha. revert b. induction Ha as [|r a Hr Ha IH]; intros b Hb; [done|].
  destruct Hb as [|r' b Hr' Hb]; [done|]. simpl. constructor; [|by apply IH].
  rewrite elem_of_app. tauto.
Qed.

(** The loop never puts the end sentinel into the decoder sequence. *)
Lemma loop_avoids_end (n : nat) :
  ∀ (output : T2 Z) (a : option (Attention weight)) row aw,
    Forall (λ r, end_id ∉ r) output →
    value (loop n output a) = Ok (row, aw) → end_id ∉ row.
Proof.
  induction n as [|n IH]; intros output a row aw Hout Hrun.
  - simpl in Hrun. destruct output as [|r [|r' output]]; try done.
    destruct a; simplify_eq/=. by inversion Hout.
  - simpl in Hrun.
    apply bind_value_ok in Hrun as ([pid aw'] & _ & Hrun & _).
    apply bind_value_ok in Hrun as (stop & Hstop & Hrun & _).
    destruct stop.
    + destruct output as [|r [|r' output]]; try done.
      simplify_eq/=. by inversion Hout.
    + apply bind_value_ok in Hrun as (output' & Hcat & Hrun & _).
      apply (IH output' (Some aw') row aw); [|done].
      unfold tf_concat in Hcat. case_decide; simplify_eq/=.
      apply zip_with_app_avoids; [done|].
      by apply tensor_truth_false.
Qed.

(** The decode loop calls the model only, at most once per iteration. *)
Lemma loop_trace (n : nat) :
  ∀ (output : T2 Z) (a : option (Attention weight)),
    Forall (λ e, Is_true (is_invoke e)) (trace (loop n output a))
    ∧ (length (trace (loop n output a)) ≤ n)%nat.
Proof.
  induction n as [|n IH]; intros output a.
  - simpl. destruct output as [|r [|r' output]], a; simpl; by split.
  - cbn [evaluate_loop]. rewrite bind_trace.
    destruct (predict_trace output) as (m1 & m2 & m3 & _ & ->).
    assert (∀ (e : event) (t : list event),
               Is_true (is_invoke e) →
               Forall (λ e, Is_true (is_invoke e)) t ∧ (length t ≤ n)%nat →
               Forall (λ e, Is_true (is_invoke e)) ([e] ++ t)
               ∧ (length ([e] ++ t) ≤ S n)%nat) as Hcons.
    { intros e t He [Ht Hlen]. split; [by constructor|simpl; lia]. }
    apply Hcons; [done|]. clear Hcons.
    destruct (value (step output)) as [[pid aw]|e]; [|split; [done|simpl; lia]].
    rewrite bind_trace.
    assert (trace (tensor_truth (tf_equal pid end_id)) = []) as ->
      by (unfold tensor_truth; by repeat case_match).
    cbn [app].
    destruct (value (tensor_truth _)) as [[|]|e]; [| |split; [done|simpl; lia]].
    + destruct output as [|r [|r' output]]; simpl; split; done || lia.
    + rewrite bind_trace.
      assert (trace (tf_concat output pid) = []) as ->
        by (unfold tf_concat; by case_decide).
      cbn [app].
      destruct (value (tf_concat output pid));
        [apply IH|split; [done|simpl; lia]].
Qed.

Lemma loop_calls (n : nat) (output : T2 Z) (a : option (Attention weight)) :
  (model_calls (trace (loop n output a)) ≤ n)%nat.
Proof.
  destruct (loop_trace n output a) as [_ Hlen].
  unfold model_calls. etrans; [apply length_filter|done].
Qed.

End LoopFacts.

(** ** The decode loop inside [evaluate] *)

Section EvaluateFacts.
Context {logit weight : Type} `{Logit logit}.
Variable inp_sentence : string.
Variables tokenizer_source tokenizer_target : SubwordTextEncoder.
Variable max_length_pred : Z.
Variable transformer : Transformer logit weight.

Local Abbreviation end_id := (vocab_size tokenizer_target + 1).
Local Abbreviation encoder_input :=
  (encoder_input_of tokenizer_source inp_sentence).
Local Abbreviation loop :=
  (evaluate_loop tokenizer_target transformer encoder_input).
Local Abbreviation step := (predict transformer encoder_input).
Local Abbreviation state :=
  (at_iteration tokenizer_target transformer encoder_input).
Local Abbreviation run :=
  (evaluate inp_sentence tokenizer_source tokenizer_target
            max_length_pred transformer).

Lemma evaluate_run :
  run = (value (loop (Z.to_nat max_length_pred)
                     [[vocab_size tokenizer_target]] None),
         Encode Source inp_sentence
         :: trace (loop (Z.to_nat max_length_pred)
                        [[vocab_size tokenizer_target]] None)).
Proof.
  unfold evaluate, tok_encode. by rewrite (bind_ok _ _ _ _ eq_refl).
Qed.

Lemma evaluate_stops_at (k : nat) (row : list Z)
      (a : option (Attention weight)) (aw : Attention weight) :
  state k row a → Z.of_nat k < max_length_pred →
  value (step [row]) = Ok ([[end_id]], aw) →
  value run = Ok (row, aw) ∧ model_calls (trace run) = S k.
Proof.
  intros Hst Hk Hstep. rewrite evaluate_run.
  destruct (loop_prefix _ _ _ k row a Hst (S (Z.to_nat max_length_pred - S k)))
    as (t & Hrun & Hcalls).
  replace (k + S (Z.to_nat max_length_pred - S k))%nat
    with (Z.to_nat max_length_pred) in Hrun by lia.
  rewrite Hrun, (loop_stop _ _ _ _ row a aw Hstep). simpl. split; [done|].
  change (model_calls (t ++ trace (step [row])) = S k).
  rewrite model_calls_app, predict_calls. lia.
Qed.

Lemma evaluate_exhausts_at (row : list Z) (a : option (Attention weight)) :
  state (Z.to_nat max_length_pred) row a → 0 < max_length_pred →
  ∃ aw, a = Some aw ∧ value run = Ok (row, aw)
        ∧ model_calls (trace run) = Z.to_nat max_length_pred.
Proof.
  intros Hst Hmax. rewrite evaluate_run.
  destruct (loop_prefix _ _ _ _ row a Hst 0%nat) as (t & Hrun & Hcalls).
  rewrite Nat.add_0_r in Hrun. rewrite Hrun.
  destruct (Z.to_nat max_length_pred) as [|k] eqn:Hk; [lia|].
  apply state_last in Hst as (row' & a' & id & aw & _ & _ & -> & _).
  exists aw. split; [done|]. simpl. split; [done|].
  change (model_calls (t ++ []) = S k). by rewrite app_nil_r.
Qed.

(** With a well-shaped model and a positive bound, [evaluate] returns,
    after at most [max_length_pred] model invocations, either from an
    iteration that selected the end sentinel or at the bound. *)
Lemma evaluate_returns :
  0 < max_length_pred → well_shaped transformer →
  ∃ row aw,
    value run = Ok (row, aw)
    ∧ (1 ≤ model_calls (trace run) ≤ Z.to_nat max_length_pred)%nat
    ∧ 1 ≤ Z.of_nat (length row) ≤ max_length_pred + 1
    ∧ ((length row = model_calls (trace run)
        ∧ value (step [row]) = Ok ([[end_id]], aw))
       ∨ (model_calls (trace run) = Z.to_nat max_length_pred
          ∧ Z.of_nat (length row) = max_length_pred + 1)).
Proof.
  intros Hmax Hshape.
  destruct (loop_progress tokenizer_target transformer encoder_input
              (Z.to_nat max_length_pred) Hshape)
    as [(j & row & a & aw & Hj & Hst & Hstep)|(row & a & Hst)].
  - destruct (evaluate_stops_at j row a aw Hst ltac:(lia) Hstep)
      as [Hval Hcalls].
    pose proof (state_length _ _ _ _ _ _ Hst) as Hlen.
    exists row, aw. rewrite Hcalls, Hlen.
    split; [done|]. split; [lia|]. split; [lia|]. by left.
  - destruct (evaluate_exhausts_at row a Hst Hmax) as (aw & -> & Hval & Hcalls).
    pose proof (state_length _ _ _ _ _ _ Hst) as Hlen.
    exists row, aw. rewrite Hcalls, Hlen.
    split; [done|]. split; [lia|]. split; [lia|]. right. lia.
Qed.

(** When the model never selects the end sentinel, every iteration is
    reached. *)
Lemma never_ends_state (k : nat) :
  well_shaped transformer →
  never_ends tokenizer_target transformer encoder_input →
  ∃ row a, state k row a.
Proof.
  intros Hshape Hnever.
  destruct (loop_progress tokenizer_target transformer encoder_input k Hshape)
    as [(j & row & a & aw & _ & _ & Hstep)|?]; [|done].
  by destruct (Hnever row _ aw Hstep).
Qed.

End EvaluateFacts.

(** ** The stub models *)

Section StubFacts.
Import Stub.

Lemma slice_last_snoc {A} (rows : T2 A) (r : list A) :
  slice_last [rows ++ [r]] = [[r]].
Proof.
  unfold slice_last. simpl.
  replace (length (rows ++ [r]) - 1)%nat with (length rows)
    by (rewrite length_app; simpl; lia).
  by rewrite drop_app_length.
Qed.

Lemma scripted_snoc (size : nat) (script : list Z) (inp : T2 Z)
      (row : list Z) (z : Z) (training : bool) (m1 m2 m3 : T4 Z) :
  (scripted size script inp [row ++ [z]] training m1 m2 m3).1
  = [imap (λ pos _, one_hot size (default 0 (script !! pos))) row
     ++ [one_hot size (default 0 (script !! length row))]].
Proof.
  unfold scripted. simpl. rewrite imap_app. simpl.
  by rewrite Nat.add_0_r.
Qed.

Lemma constant_snoc (size : nat) (id : Z) (inp : T2 Z)
      (row : list Z) (z : Z) (training : bool) (m1 m2 m3 : T4 Z) :
  (constant size id inp [row ++ [z]] training m1 m2 m3).1
  = [((λ _, one_hot size id) <$> row) ++ [one_hot size id]].
Proof. unfold constant. simpl. by rewrite fmap_app. Qed.

Lemma one_hot_cons (size : nat) (id : Z) :
  one_hot (S size) id
  = (if bool_decide (0 = id) then 1 else 0)
      :: ((λ j : nat, if bool_decide (Z.of_nat j = id) then 1 else 0)
            <$> seq 1 size).
Proof. done. Qed.

Lemma scripted_well_shaped (size : nat) (script : list Z) :
  well_shaped (scripted (S size) script).
Proof.
  intros inp row training m1 m2 m3 Hrow.
  destruct row as [|z row _] using rev_ind; [done|].
  rewrite scripted_snoc, one_hot_cons. eauto.
Qed.

Lemma constant_well_shaped (size : nat) (id : Z) :
  well_shaped (constant (S size) id).
Proof.
  intros inp row training m1 m2 m3 Hrow.
  destruct row as [|z row _] using rev_ind; [done|].
  rewrite constant_snoc, one_hot_cons. eauto.
Qed.

(** What the loop body computes with a constant model. *)
Lemma predict_constant (size : nat) (id : Z) (encoder_input : T2 Z)
      (row : list Z) (z : Z) :
  value (predict (constant size id) encoder_input [row ++ [z]])
  = match value (argmax_row (one_hot size id)) with
    | Ok i => Ok ([[wrap_int32 i]], attention_of [row ++ [z]])
    | Raise e => Raise e
    end.
Proof.
  unfold predict.
  destruct (create_masks encoder_input [row ++ [z]]) as [[m1 m2] m3].
  unfold call. rewrite (bind_ok _ _ _ _ eq_refl).
  pose proof (constant_snoc size id encoder_input row z false m1 m2 m3) as Hp.
  destruct (constant size id _ _ _ _ _ _) as [predictions aw] eqn:Hc.
  assert (aw = attention_of [row ++ [z]]) as ->
    by (unfold constant in Hc; by simplify_eq).
  simpl in Hp. subst predictions. cbv beta iota zeta.
  rewrite slice_last_snoc. unfold tf_argmax. simpl.
  destruct (argmax_row (one_hot size id)) as [[i|e] t]; done.
Qed.

Lemma constant_never_ends (tokenizer_target : SubwordTextEncoder)
      (size : nat) (id : Z) (encoder_input : T2 Z) :
  (∀ i, value (argmax_row (one_hot size id)) = Ok i →
        wrap_int32 i ≠ vocab_size tokenizer_target + 1) →
  never_ends tokenizer_target (constant size id) encoder_input.
Proof.
  intros Hid row i aw Hstep.
  destruct row as [|z row _] using rev_ind.
  - unfold predict in Hstep.
    destruct (create_masks encoder_input [[]]) as [[m1 m2] m3]. done.
  - rewrite predict_constant in Hstep.
    destruct (value (argmax_row (one_hot size id))) as [j|e] eqn:Hj; [|done].
    simplify_eq. by apply Hid.
Qed.

End StubFacts.

(** ** Greedy decoding *)

Section LoopPrefix.
Context {logit weight : Type} `{Logit logit}.

(** The decoder sequence only grows at its end, by at most one id per
    iteration. *)
Lemma loop_extends (tokenizer_target : SubwordTextEncoder)
      (transformer : Transformer logit weight) (encoder_input : T2 Z)
      (n : nat) :
  ∀ (r : list Z) (a : option (Attention weight)) row aw,
    value (evaluate_loop tokenizer_target transformer encoder_input n [r] a)
    = Ok (row, aw) →
    r `prefix_of` row ∧ (length row ≤ length r + n)%nat.
Proof.
  induction n as [|n IH]; intros r a row aw Hrun.
  - simpl in Hrun. destruct a; simplify_eq/=. split; [done|lia].
  - simpl in Hrun.
    apply bind_value_ok in Hrun as ([pid aw'] & _ & Hrun & _).
    apply bind_value_ok in Hrun as (stop & Hstop & Hrun & _).
    destruct stop; [simplify_eq/=; split; [done|lia]|].
    apply bind_value_ok in Hrun as (output' & Hcat & Hrun & _).
    unfold tf_concat in Hcat. case_decide; simplify_eq/=.
    destruct pid as [|p [|p' pid]]; simplify_eq/=.
    unfold tensor_truth, tf_equal in Hstop. simpl in Hstop.
    rewrite app_nil_r in Hstop.
    destruct p as [|x [|y p]]; simplify_eq/=.
    apply IH in Hrun as [Hpre Hlen]. split.
    + etrans; [|done]. by apply prefix_app_r.
    + rewrite length_app in Hlen. simpl in Hlen. lia.
Qed.
End LoopPrefix.

(** C1.  If the loop of [evaluate] reaches an iteration, numbered [k] from
    0, in which the greedy argmax over the logits of the last position
    equals the end sentinel [vocab_size + 1] of the target vocabulary, then
    the loop stops at that iteration: [evaluate] returns the decoder
    sequence [row] accumulated so far, to which the end sentinel is not
    appended, together with the attention weights [aw] of that very
    iteration, after [k + 1] model invocations.  In particular, when the
    model selects the end sentinel on the first step ([k = 0]) the output is
    the one-token sequence that holds the target start sentinel. *)
Theorem evaluate_stops_on_end_sentinel {logit weight : Type} `{Logit logit}
    (inp_sentence : string)
    (tokenizer_source tokenizer_target : SubwordTextEncoder)
    (max_length_pred : Z) (transformer : Transformer logit weight)
    (k : nat) (row : list Z) (a : option (Attention weight))
    (aw : Attention weight) :
  at_iteration tokenizer_target transformer
               (encoder_input_of tokenizer_source inp_sentence) k row a →
  Z.of_nat k < max_length_pred →
  value (predict transformer (encoder_input_of tokenizer_source inp_sentence)
                 [row])
  = Ok ([[vocab_size tokenizer_target + 1]], aw) →
  value (evaluate inp_sentence tokenizer_source tokenizer_target
                  max_length_pred transformer) = Ok (row, aw)
  ∧ model_calls (trace (evaluate inp_sentence tokenizer_source tokenizer_target
                                 max_length_pred transformer)) = S k
  ∧ length row = S k
  ∧ (k = 0%nat → row = [vocab_size tokenizer_target]).
Proof.
  intros Hst Hk Hstep.
  destruct (evaluate_stops_at _ _ _ _ _ k row a aw Hst Hk Hstep) as [Hval Hcalls].
  split; [done|]. split; [done|].
  split; [by eapply state_length|].
  intros ->. by apply state_start_inv in Hst as [-> _].
Qed.

Lemma evaluate_stops_on_end_sentinel_witness :
  let tokenizer_source := Stub.tokenizer 20 in
  let tokenizer_target := Stub.tokenizer 10 in
  let transformer := Stub.scripted 12 [5; 7; 11; 2] in
  (at_iteration tokenizer_target transformer
                (encoder_input_of tokenizer_source "hello") 2 [10; 5; 7]
                (Some (Stub.attention_of [[10; 5]]))
   ∧ Z.of_nat 2 < 5
   ∧ value (predict transformer (encoder_input_of tokenizer_source "hello")
                    [[10; 5; 7]])
     = Ok ([[11]], Stub.attention_of [[10; 5; 7]]))
  ∧ value (evaluate "hello" tokenizer_source tokenizer_target 5 transformer)
    = Ok ([10; 5; 7], Stub.attention_of [[10; 5; 7]])
  ∧ model_calls (trace (evaluate "hello" tokenizer_source tokenizer_target 5
                                 transformer)) = 3%nat
  ∧ length [10; 5; 7] = 3%nat
  ∧ (2%nat = 0%nat → [10; 5; 7] = [10]).
Proof.
  intros tokenizer_source tokenizer_target transformer.
  assert (at_iteration tokenizer_target transformer
            (encoder_input_of tokenizer_source "hello") 2 [10; 5; 7]
            (Some (Stub.attention_of [[10; 5]]))) as Hst.
  { apply (at_next _ _ _ 1 [10; 5] (Some (Stub.attention_of [[10]])) 7
                   (Stub.attention_of [[10; 5]])); [|reflexivity|done].
    apply (at_next _ _ _ 0 [10] None 5 (Stub.attention_of [[10]]));
      [|reflexivity|done].
    apply at_start. }
  split; [split; [exact Hst|split; [lia|reflexivity]]|].
  apply (evaluate_stops_on_end_sentinel
           "hello" tokenizer_source tokenizer_target 5 transformer
           2 [10; 5; 7] (Some (Stub.attention_of [[10; 5]]))
           (Stub.attention_of [[10; 5; 7]]) Hst); [lia|reflexivity].
Defined.

Example hello_ends_at_once :
  evaluate "hello" (Stub.tokenizer 20) (Stub.tokenizer 10) 5
           (Stub.constant 12 11)
  = (Ok ([10], Stub.attention_of [[10]]),
     [Encode Source "hello";
      Invoke [[20; 4; 1; 8; 8; 11; 21]] [[10]] false
             [[[[0; 0; 0; 0; 0; 0; 0]]]] [[[[0]]]]
             [[[[0; 0; 0; 0; 0; 0; 0]]]]]).
Proof. reflexivity. Qed.

(** C2.  For every source sentence, tokenizers, bound [max_length_pred] and
    model, [evaluate] terminates (it is a total function) after at most
    [max_length_pred] model invocations, and a token sequence that it returns
    has between 1 and [max_length_pred + 1] elements, the start sentinel
    included.  When the bound is positive and the predictions of the model
    have the shape that the loop relies on, [evaluate] does return a result,
    after at least one model invocation, and it stops either at an iteration
    that produced the end sentinel or at the iteration bound. *)
Theorem evaluate_terminates {logit weight : Type} `{Logit logit}
    (inp_sentence : string)
    (tokenizer_source tokenizer_target : SubwordTextEncoder)
    (max_length_pred : Z) (transformer : Transformer logit weight) :
  let run := evaluate inp_sentence tokenizer_source tokenizer_target
                      max_length_pred transformer in
  (model_calls (trace run) ≤ Z.to_nat max_length_pred)%nat
  ∧ (∀ (row : list Z) (aw : Attention weight),
       value run = Ok (row, aw) →
       0 < max_length_pred
       ∧ 1 ≤ Z.of_nat (length row) ≤ max_length_pred + 1)
  ∧ (0 < max_length_pred → well_shaped transformer →
     ∃ (row : list Z) (aw : Attention weight),
       value run = Ok (row, aw)
       ∧ (1 ≤ model_calls (trace run) ≤ Z.to_nat max_length_pred)%nat
       ∧ 1 ≤ Z.of_nat (length row) ≤ max_length_pred + 1
       ∧ ((length row = model_calls (trace run)
           ∧ value (predict transformer
                            (encoder_input_of tokenizer_source inp_sentence)
                            [row])
             = Ok ([[vocab_size tokenizer_target + 1]], aw))
          ∨ (model_calls (trace run) = Z.to_nat max_length_pred
             ∧ Z.of_nat (length row) = max_length_pred + 1))).
Proof.
  intros run. split; [|split].
  - unfold run. rewrite evaluate_run.
    apply (loop_calls tokenizer_target transformer).
  - intros row aw Hrun. unfold run in Hrun. rewrite evaluate_run in Hrun.
    simpl in Hrun.
    assert (0 < max_length_pred) as Hmax
      by (destruct (Z.to_nat max_length_pred) eqn:Hn; [done|lia]).
    apply loop_extends in Hrun as [Hpre Hlen].
    apply prefix_length in Hpre. simpl in *. lia.
  - apply evaluate_returns.
Qed.

Lemma evaluate_terminates_witness :
  let tokenizer_source := Stub.tokenizer 20 in
  let tokenizer_target := Stub.tokenizer 10 in
  let transformer := Stub.scripted 12 [5; 7; 11; 2] in
  let run := evaluate "hello" tokenizer_source tokenizer_target 5 transformer in
  (0 < 5 ∧ well_shaped transformer
   ∧ value run = Ok ([10; 5; 7], Stub.attention_of [[10; 5; 7]]))
  ∧ (model_calls (trace run) ≤ Z.to_nat 5)%nat
  ∧ (0 < 5 ∧ 1 ≤ Z.of_nat (length [10; 5; 7]) ≤ 5 + 1)
  ∧ ∃ (row : list Z) (aw : Attention Z),
      value run = Ok (row, aw)
      ∧ (1 ≤ model_calls (trace run) ≤ Z.to_nat 5)%nat
      ∧ 1 ≤ Z.of_nat (length row) ≤ 5 + 1
      ∧ ((length row = model_calls (trace run)
          ∧ value (predict transformer
                           (encoder_input_of tokenizer_source "hello") [row])
            = Ok ([[vocab_size tokenizer_target + 1]], aw))
         ∨ (model_calls (trace run) = Z.to_nat 5
            ∧ Z.of_nat (length row) = 5 + 1)).
Proof.
  intros tokenizer_source tokenizer_target transformer run.
  assert (well_shaped transformer) as Hshape
    by apply scripted_well_shaped.
  assert (value run = Ok ([10; 5; 7], Stub.attention_of [[10; 5; 7]]))
    as Hrun by reflexivity.
  destruct (evaluate_terminates "hello" tokenizer_source tokenizer_target 5
                                transformer) as (Hcalls & Hlen & Hres).
  split; [split; [lia|split; [exact Hshape|exact Hrun]]|].
  split; [exact Hcalls|].
  split; [exact (Hlen _ _ Hrun)|].
  apply Hres; [lia|exact Hshape].
Defined.

(** C3.  For every source sentence, tokenizers, positive [max_length_pred]
    and model whose greedy argmax never equals the end sentinel of the
    target vocabulary, [evaluate] exhausts the loop and returns, without an
    error, a sequence of exactly [max_length_pred + 1] elements (the start
    sentinel and [max_length_pred] generated tokens) together with the
    attention weights of the last iteration, after [max_length_pred] model
    invocations; with [max_length_pred = 5] the length is exactly 6. *)
Theorem evaluate_truncates {logit weight : Type} `{Logit logit}
    (inp_sentence : string)
    (tokenizer_source tokenizer_target : SubwordTextEncoder)
    (max_length_pred : Z) (transformer : Transformer logit weight) :
  0 < max_length_pred → well_shaped transformer →
  never_ends tokenizer_target transformer
             (encoder_input_of tokenizer_source inp_sentence) →
  ∃ (row : list Z) (aw : Attention weight),
    value (evaluate inp_sentence tokenizer_source tokenizer_target
                    max_length_pred transformer) = Ok (row, aw)
    ∧ Z.of_nat (length row) = max_length_pred + 1
    ∧ (max_length_pred = 5 → length row = 6%nat)
    ∧ model_calls (trace (evaluate inp_sentence tokenizer_source
                                   tokenizer_target max_length_pred
                                   transformer))
      = Z.to_nat max_length_pred
    ∧ ∃ (row' : list Z) (id : Z),
        row = row' ++ [id]
        ∧ value (predict transformer
                         (encoder_input_of tokenizer_source inp_sentence)
                         [row'])
          = Ok ([[id]], aw).
Proof.
  intros Hmax Hshape Hnever.
  destruct (never_ends_state inp_sentence tokenizer_source tokenizer_target
              transformer (Z.to_nat max_length_pred) Hshape Hnever)
    as (row & a & Hst).
  destruct (evaluate_exhausts_at _ _ _ _ _ row a Hst Hmax)
    as (aw & -> & Hval & Hcalls).
  pose proof (state_length _ _ _ _ _ _ Hst) as Hlen.
  exists row, aw. split; [done|]. split; [lia|]. split; [lia|].
  split; [done|].
  destruct (Z.to_nat max_length_pred) as [|k] eqn:Hk; [lia|].
  apply state_last in Hst as (row' & a' & id & aw' & _ & -> & ? & Hstep & _).
  simplify_eq. eauto.
Qed.

Lemma evaluate_truncates_witness :
  let tokenizer_source := Stub.tokenizer 20 in
  let tokenizer_target := Stub.tokenizer 10 in
  let transformer := Stub.constant 12 3 in
  (0 < 5 ∧ well_shaped transformer
   ∧ never_ends tokenizer_target transformer
                (encoder_input_of tokenizer_source "hello"))
  ∧ ∃ (row : list Z) (aw : Attention Z),
      value (evaluate "hello" tokenizer_source tokenizer_target 5 transformer)
      = Ok (row, aw)
      ∧ Z.of_nat (length row) = 5 + 1
      ∧ (5 = 5 → length row = 6%nat)
      ∧ model_calls (trace (evaluate "hello" tokenizer_source tokenizer_target
                                     5 transformer))
        = Z.to_nat 5
      ∧ ∃ (row' : list Z) (id : Z),
          row = row' ++ [id]
          ∧ value (predict transformer
                           (encoder_input_of tokenizer_source "hello") [row'])
            = Ok ([[id]], aw).
Proof.
  intros tokenizer_source tokenizer_target transformer.
  assert (well_shaped transformer) as Hshape
    by apply constant_well_shaped.
  assert (never_ends tokenizer_target transformer
                     (encoder_input_of tokenizer_source "hello")) as Hnever.
  { apply constant_never_ends. intros i Hi.
    vm_compute in Hi. injection Hi as <-. vm_compute. discriminate. }
  split; [split; [lia|split; [exact Hshape|exact Hnever]]|].
  apply (evaluate_truncates "hello" tokenizer_source tokenizer_target 5
                            transformer); [lia|exact Hshape|exact Hnever].
Defined.

Example truncation_at_five :
  value (evaluate "hello" (Stub.tokenizer 20) (Stub.tokenizer 10) 5
                  (Stub.constant 12 3))
  = Ok ([10; 3; 3; 3; 3; 3], Stub.attention_of [[10; 3; 3; 3; 3]]).
Proof. reflexivity. Qed.

(** C10.  No element of the token sequence returned by [evaluate] equals the
    end sentinel [vocab_size + 1] of the target vocabulary: the sequence
    starts as the start sentinel alone, which stays its first element, the
    loop returns before appending when the end sentinel is predicted, and
    every appended id was compared with it and found different. *)
Theorem evaluate_never_returns_end_sentinel {logit weight : Type} `{Logit logit}
    (inp_sentence : string)
    (tokenizer_source tokenizer_target : SubwordTextEncoder)
    (max_length_pred : Z) (transformer : Transformer logit weight)
    (row : list Z) (aw : Attention weight) :
  value (evaluate inp_sentence tokenizer_source tokenizer_target
                  max_length_pred transformer) = Ok (row, aw) →
  ((vocab_size tokenizer_target + 1) ∉ row)
  ∧ [vocab_size tokenizer_target] `prefix_of` row
  ∧ 0 < max_length_pred.
Proof.
  intros Hrun. rewrite evaluate_run in Hrun. simpl in Hrun.
  split; [|split].
  - eapply loop_avoids_end; [|exact Hrun].
    constructor; [|done]. rewrite list_elem_of_singleton. lia.
  - by eapply loop_extends.
  - destruct (Z.to_nat max_length_pred) eqn:Hn; [done|lia].
Qed.

Lemma evaluate_never_returns_end_sentinel_witness :
  let tokenizer_source := Stub.tokenizer 20 in
  let tokenizer_target := Stub.tokenizer 10 in
  let transformer := Stub.scripted 12 [5; 7; 11; 2] in
  value (evaluate "hello" tokenizer_source tokenizer_target 5 transformer)
  = Ok ([10; 5; 7], Stub.attention_of [[10; 5; 7]])
  ∧ ((vocab_size tokenizer_target + 1) ∉ [10; 5; 7])
  ∧ [vocab_size tokenizer_target] `prefix_of` [10; 5; 7]
  ∧ 0 < 5.
Proof.
  intros tokenizer_source tokenizer_target transformer.
  split; [reflexivity|].
  apply (evaluate_never_returns_end_sentinel
           "hello" tokenizer_source tokenizer_target 5 transformer
           [10; 5; 7] (Stub.attention_of [[10; 5; 7]])).
  reflexivity.
Defined.

(** ** Inputs that [evaluate] does not validate *)

Section Unvalidated.
Context {logit weight : Type} `{Logit logit}.

(** The first model invocation of a run with a positive bound receives the
    encoder input built from the sentence and the lone start sentinel. *)
Lemma evaluate_first_call (inp_sentence : string)
      (tokenizer_source tokenizer_target : SubwordTextEncoder)
      (max_length_pred : Z) (transformer : Transformer logit weight) :
  0 < max_length_pred →
  ∃ m1 m2 m3,
    trace (evaluate inp_sentence tokenizer_source tokenizer_target
                    max_length_pred transformer) !! 1%nat
    = Some (Invoke (encoder_input_of tokenizer_source inp_sentence)
                   [[vocab_size tokenizer_target]] false m1 m2 m3).
Proof.
  intros Hmax. rewrite evaluate_run. simpl.
  destruct (Z.to_nat max_length_pred) as [|n] eqn:Hn; [lia|]. simpl.
  destruct (predict_trace transformer
              (encoder_input_of tokenizer_source inp_sentence)
              [[vocab_size tokenizer_target]]) as (m1 & m2 & m3 & _ & Ht).
  exists m1, m2, m3.
  destruct (predict _ _ _) as [[[pid aw]|e] t]; simpl in Ht; subst t; [|done].
  rewrite (bind_ok _ _ _ _ eq_refl). done.
Qed.

Lemma evaluate_without_iterations (inp_sentence : string)
      (tokenizer_source tokenizer_target : SubwordTextEncoder)
      (max_length_pred : Z) (transformer : Transformer logit weight) :
  max_length_pred ≤ 0 →
  evaluate inp_sentence tokenizer_source tokenizer_target
           max_length_pred transformer
  = (Raise (UnboundLocalError "attention_weights"),
     [Encode Source inp_sentence]).
Proof.
  intros Hmax. rewrite evaluate_run.
  replace (Z.to_nat max_length_pred) with 0%nat by lia. done.
Qed.

End Unvalidated.

(** C8, as stated, fails: [evaluate] does not reject an empty source
    sentence.  With the empty sentence, a bound of 2 and a model that
    selects the id 5 and then the end sentinel, it invokes the model twice
    and returns the sequence [[10; 5]]. *)
Lemma evaluate_empty_sentence_counterexample :
  evaluate EmptyString (Stub.tokenizer 20) (Stub.tokenizer 10) 2
           (Stub.scripted 12 [5; 11])
  = (Ok ([10; 5], Stub.attention_of [[10; 5]]),
     [Encode Source EmptyString;
      Invoke [[20; 21]] [[10]] false [[[[0; 0]]]] [[[[0]]]] [[[[0; 0]]]];
      Invoke [[20; 21]] [[10; 5]] false
             [[[[0; 0]]]] [[[[0; 1]; [0; 0]]]] [[[[0; 0]]]]])
  ∧ ¬ (∀ (inp_sentence : string)
         (tokenizer_source tokenizer_target : SubwordTextEncoder)
         (max_length_pred : Z) (transformer : Transformer Z Z),
         inp_sentence = EmptyString ∨ max_length_pred ≤ 0 →
         ∃ e : exn,
           value (evaluate inp_sentence tokenizer_source tokenizer_target
                           max_length_pred transformer) = Raise e).
Proof.
  split; [reflexivity|].
  intros Hclaim.
  destruct (Hclaim EmptyString (Stub.tokenizer 20) (Stub.tokenizer 10) 2
                   (Stub.scripted 12 [5; 11]) (or_introl eq_refl)) as [e He].
  vm_compute in He. discriminate.
Qed.

(** C8, amended.  [evaluate] validates neither the sentence nor the bound.
    With a non-positive [max_length_pred] the loop body never runs: the
    sentence is encoded, the model is not invoked, and the final [return]
    raises on reading the unassigned [attention_weights], so that no result,
    partial or not, is produced.  An empty source sentence raises nothing:
    with a positive bound (and a model whose predictions have the shape the
    loop relies on) it is decoded like any other sentence, from the encoder
    input that holds the two source sentinels around its encoding, and a
    result is returned. *)
Theorem evaluate_invalid_input {logit weight : Type} `{Logit logit}
    (inp_sentence : string)
    (tokenizer_source tokenizer_target : SubwordTextEncoder)
    (max_length_pred : Z) (transformer : Transformer logit weight) :
  (max_length_pred ≤ 0 →
   evaluate inp_sentence tokenizer_source tokenizer_target
            max_length_pred transformer
   = (Raise (UnboundLocalError "attention_weights"),
      [Encode Source inp_sentence])
   ∧ model_calls (trace (evaluate inp_sentence tokenizer_source
                                  tokenizer_target max_length_pred
                                  transformer)) = 0%nat)
  ∧ (inp_sentence = EmptyString → 0 < max_length_pred → well_shaped transformer →
     ∃ (row : list Z) (aw : Attention weight) (t : list event)
       (m1 m2 m3 : T4 Z),
       evaluate inp_sentence tokenizer_source tokenizer_target
                max_length_pred transformer = (Ok (row, aw), t)
       ∧ t !! 0%nat = Some (Encode Source EmptyString)
       ∧ t !! 1%nat
         = Some (Invoke [[vocab_size tokenizer_source]
                         ++ encode tokenizer_source EmptyString
                         ++ [vocab_size tokenizer_source + 1]]
                        [[vocab_size tokenizer_target]] false m1 m2 m3)
       ∧ (1 ≤ model_calls t)%nat).
Proof.
  split.
  - intros Hmax. by rewrite evaluate_without_iterations.
  - intros -> Hmax Hshape.
    destruct (evaluate_returns EmptyString tokenizer_source tokenizer_target
                max_length_pred transformer Hmax Hshape)
      as (row & aw & Hval & Hcalls & _).
    destruct (evaluate_first_call EmptyString tokenizer_source tokenizer_target
                max_length_pred transformer Hmax) as (m1 & m2 & m3 & Hfirst).
    pose proof (evaluate_run EmptyString tokenizer_source tokenizer_target
                  max_length_pred transformer) as Hrun.
    destruct (evaluate _ _ _ _ _) as [r t] eqn:Hev. simpl in *. subst r.
    exists row, aw, t, m1, m2, m3.
    split; [done|]. split; [by simplify_eq|]. split; [done|lia].
Qed.

Lemma evaluate_invalid_input_witness :
  let tokenizer_source := Stub.tokenizer 20 in
  let tokenizer_target := Stub.tokenizer 10 in
  let transformer := Stub.scripted 12 [5; 11] in
  ((-3 ≤ 0)
   ∧ evaluate "hello" tokenizer_source tokenizer_target (-3) transformer
     = (Raise (UnboundLocalError "attention_weights"),
        [Encode Source "hello"])
   ∧ model_calls (trace (evaluate "hello" tokenizer_source tokenizer_target
                                  (-3) transformer)) = 0%nat)
  ∧ ((EmptyString = EmptyString ∧ 0 < 2 ∧ well_shaped transformer)
     ∧ ∃ (row : list Z) (aw : Attention Z) (t : list event)
         (m1 m2 m3 : T4 Z),
         evaluate EmptyString tokenizer_source tokenizer_target 2 transformer
         = (Ok (row, aw), t)
         ∧ t !! 0%nat = Some (Encode Source EmptyString)
         ∧ t !! 1%nat
           = Some (Invoke [[vocab_size tokenizer_source]
                           ++ encode tokenizer_source EmptyString
                           ++ [vocab_size tokenizer_source + 1]]
                          [[vocab_size tokenizer_target]] false m1 m2 m3)
         ∧ (1 ≤ model_calls t)%nat).
Proof.
  intros tokenizer_source tokenizer_target transformer.
  assert (well_shaped transformer) as Hshape
    by apply scripted_well_shaped.
  split.
  - split; [lia|].
    apply (evaluate_invalid_input "hello" tokenizer_source tokenizer_target
                                  (-3) transformer).
    lia.
  - split; [split; [reflexivity|split; [lia|exact Hshape]]|].
    apply (evaluate_invalid_input EmptyString tokenizer_source tokenizer_target
                                  2 transformer); [reflexivity|lia|exact Hshape].
Defined.

(** ** Translation *)

Lemma decode_calls_app (tok : side) (t1 t2 : list event) :
  decode_calls tok (t1 ++ t2) = decode_calls tok t1 ++ decode_calls tok t2.
Proof. apply omap_app. Qed.

Lemma decode_calls_invokes (tok : side) (t : list event) :
  Forall (λ e, Is_true (is_invoke e)) t → decode_calls tok t = [].
Proof.
  induction 1 as [|e t He _ IH]; [done|].
  destruct e; first [done | exact IH].
Qed.

Lemma mapM_decode (tok : side) (t : SubwordTextEncoder) (l : list Z) :
  mapM (λ i, tok_decode tok t [i]) l
  = (Ok ((λ i, decode t [i]) <$> l), (λ i, Decode tok [i]) <$> l).
Proof.
  induction l as [|i l IH]; [done|]. simpl. rewrite IH.
  rewrite (bind_ok _ _ _ _ eq_refl). simpl. by rewrite app_nil_r.
Qed.

Lemma decode_calls_singletons (tok tok' : side) (l : list Z) :
  decode_calls tok ((λ i, Decode tok' [i]) <$> l)
  = if decide (tok' = tok) then (λ i, [i]) <$> l else [].
Proof.
  induction l as [|i l IH]; [by case_decide|].
  csimpl. unfold decode_calls in *. simpl. rewrite IH.
  by case_decide.
Qed.

Section TranslateFacts.
Context {logit weight : Type} `{Logit logit}.

Lemma evaluate_decode_calls (tok : side) (inp_sentence : string)
      (tokenizer_source tokenizer_target : SubwordTextEncoder)
      (max_length_pred : Z) (transformer : Transformer logit weight) :
  decode_calls tok (trace (evaluate inp_sentence tokenizer_source
                                    tokenizer_target max_length_pred
                                    transformer)) = [].
Proof.
  rewrite evaluate_run. simpl. unfold decode_calls. simpl.
  apply decode_calls_invokes, loop_trace.
Qed.

(** A loop whose body either makes the target [decode] calls [calls] and
    completes, or raises at once, makes these calls once per completed
    pass. *)
Lemma for_each_decode_calls {A} (l : list A) (body : A → M unit)
      (calls : list (list Z)) :
  (∀ x, (value (body x) = Ok tt
         ∧ decode_calls Target (trace (body x)) = calls)
        ∨ (∃ e, body x = (Raise e, []))) →
  ∃ passes : nat,
    decode_calls Target (trace (for_each l body))
    = mjoin (replicate passes calls).
Proof.
  intros Hbody. induction l as [|x l [passes IH]]; [by exists 0%nat|].
  cbn [for_each]. rewrite bind_trace, decode_calls_app.
  destruct (Hbody x) as [[-> ->]|[e ->]].
  - exists (S passes). by rewrite IH.
  - by exists 0%nat.
Qed.

(** Each head that is plotted decodes, with the target tokenizer, the ids
    below the target vocabulary size one by one. *)
Lemma plot_head_decode_calls
      (tokenizer_source tokenizer_target : SubwordTextEncoder)
      (sentence result : list Z) (n_result head : nat) :
  let body : M unit :=
    _ ← add_subplot (head + 1);
    xs ← mapM (λ i, tok_decode Source tokenizer_source [i]) sentence;
    ys ← mapM (λ i, tok_decode Target tokenizer_target [i])
              (filter (λ i, i < vocab_size tokenizer_target) result);
    emit (PltAxes (head + 1) (length sentence + 2) n_result
                  (["<start>"] ++ xs ++ ["<end>"]) ys) in
  (value body = Ok tt
   ∧ decode_calls Target (trace body)
     = (λ i, [i]) <$> filter (λ i, i < vocab_size tokenizer_target) result)
  ∨ (∃ e, body = (Raise e, [])).
Proof.
  intros body. subst body. unfold add_subplot.
  case_decide; [left|right; by eexists].
  rewrite bind_ret, !mapM_decode.
  rewrite (bind_ok _ _ _ _ eq_refl), (bind_ok _ _ _ _ eq_refl).
  split; [done|]. cbn [trace snd emit app].
  rewrite !decode_calls_app, !decode_calls_singletons.
  repeat case_decide; try done. simpl. by rewrite app_nil_r.
Qed.

Lemma plot_decode_calls (attention : Attention weight) (sentence : string)
      (result : list Z) (layer : string)
      (tokenizer_source tokenizer_target : SubwordTextEncoder) :
  ∃ plotted : nat,
    decode_calls Target
      (trace (plot_attention_weights attention sentence result layer
                                     tokenizer_source tokenizer_target))
    = mjoin (replicate plotted
               ((λ i, [i]) <$> filter (λ i, i < vocab_size tokenizer_target)
                                      result)).
Proof.
  unfold plot_attention_weights.
  rewrite bind_trace. cbn [emit value trace fst snd].
  rewrite bind_trace. cbn [tok_encode value trace fst snd].
  rewrite bind_trace. unfold dict_get.
  destruct (attention !! layer) as [att|]; [|by exists 0%nat].
  cbn [mret M_ret value trace fst snd]. rewrite bind_trace.
  destruct att as [|att0 [|att1 att]]; try by exists 0%nat.
  cbn [tf_squeeze mret M_ret value trace fst snd]. rewrite bind_trace.
  match goal with
  | |- context [for_each ?l ?body] =>
      destruct (for_each_decode_calls l body
                  ((λ i, [i]) <$> filter (λ i, i < vocab_size tokenizer_target)
                                         result))
        as [plotted Hplot];
      [intros head; apply plot_head_decode_calls|]
  end.
  exists plotted. rewrite !decode_calls_app, Hplot.
  destruct (value (for_each _ _)); simpl; by rewrite app_nil_r.
Qed.

End TranslateFacts.

(** C9.  For every result sequence [result] returned by [evaluate],
    [translate] passes to [decode] of the target tokenizer exactly the
    subsequence of the ids of [result] that are strictly less than the
    target [vocab_size], in their order: this is the first call to a
    tokenizer after the decode loop, and its result is the sentence that
    [translate] returns.  The start sentinel ([vocab_size]) and every id at
    or beyond [vocab_size] are excluded.  Without plotting this is the only
    call to [decode]; with plotting, the only further calls to the target
    [decode] are those of the plot, which decodes the same ids one by one
    for each head it draws.  For the ids [[10; 5; 7; 11]] and a target
    [vocab_size] of 10 the ids kept are [[5; 7]]. *)
Theorem translate_decodes_ids_below_vocab_size
    {logit weight : Type} `{Logit logit}
    (inp_sentence : string)
    (tokenizer_source tokenizer_target : SubwordTextEncoder)
    (max_length_pred : Z) (transformer : Transformer logit weight)
    (plot : string) (result : list Z) (aw : Attention weight) :
  value (evaluate inp_sentence tokenizer_source tokenizer_target
                  max_length_pred transformer) = Ok (result, aw) →
  ∃ (t_plot : list event) (plotted : nat),
    let kept := filter (λ i, i < vocab_size tokenizer_target) result in
    let run := translate inp_sentence tokenizer_source tokenizer_target
                         max_length_pred transformer plot in
    trace run
    = trace (evaluate inp_sentence tokenizer_source tokenizer_target
                      max_length_pred transformer)
      ++ Decode Target kept :: t_plot
    ∧ decode_calls Target (trace run)
      = kept :: mjoin (replicate plotted ((λ i, [i]) <$> kept))
    ∧ (plot = EmptyString →
       t_plot = [] ∧ plotted = 0%nat
       ∧ value run = Ok (decode tokenizer_target kept))
    ∧ (∀ s, value run = Ok s → s = decode tokenizer_target kept)
    ∧ (∀ i, i ∈ kept ↔ i ∈ result ∧ i < vocab_size tokenizer_target)
    ∧ kept `sublist_of` result
    ∧ (vocab_size tokenizer_target ∉ kept)
    ∧ filter (λ i, i < 10) [10; 5; 7; 11] = [5; 7].
Proof.
  intros Hev.
  set (kept := filter (λ i, i < vocab_size tokenizer_target) result).
  set (ev := evaluate inp_sentence tokenizer_source tokenizer_target
                      max_length_pred transformer) in *.
  set (plotting :=
         if bool_decide (plot = EmptyString) then mret tt
         else plot_attention_weights aw inp_sentence result plot
                                     tokenizer_source tokenizer_target).
  assert (translate inp_sentence tokenizer_source tokenizer_target
                    max_length_pred transformer plot
          = (match value plotting with
             | Ok _ => Ok (decode tokenizer_target kept)
             | Raise e => Raise e
             end,
             trace ev ++ Decode Target kept :: trace plotting)) as Hrun.
  { unfold translate. fold ev.
    destruct ev as [r t]. simpl in Hev. subst r.
    rewrite (bind_ok _ _ _ _ eq_refl). cbn [value trace fst snd].
    unfold tok_decode. rewrite (bind_ok _ _ _ _ eq_refl).
    cbn [value trace fst snd]. fold kept. fold plotting.
    rewrite bind_value, bind_trace.
    destruct plotting as [[[]|e] tp]; simpl; by rewrite ?app_nil_r. }
  assert (∃ plotted : nat,
             decode_calls Target (trace plotting)
             = mjoin (replicate plotted ((λ i, [i]) <$> kept))
             ∧ (plot = EmptyString → plotted = 0%nat)) as (plotted & Hplot & Hnone).
  { unfold plotting. case_bool_decide as Hp.
    - by exists 0%nat.
    - destruct (plot_decode_calls aw inp_sentence result plot
                  tokenizer_source tokenizer_target) as [plotted Hplot].
      by exists plotted. }
  exists (trace plotting), plotted. cbv zeta. rewrite Hrun.
  cbn [value trace fst snd].
  split; [done|]. split.
  { rewrite decode_calls_app. unfold ev.
    rewrite evaluate_decode_calls. simpl.
    change (kept :: decode_calls Target (trace plotting)
            = kept :: mjoin (replicate plotted ((λ i, [i]) <$> kept))).
    by rewrite Hplot. }
  split.
  { intros Hp. unfold plotting. rewrite bool_decide_eq_true_2 by done.
    split; [done|]. split; [by apply Hnone|done]. }
  split; [by destruct (value plotting); intros; simplify_eq|].
  split; [intros i; unfold kept; rewrite list_elem_of_filter; tauto|].
  split; [apply sublist_filter|].
  split; [|reflexivity].
  unfold kept. rewrite list_elem_of_filter. lia.
Qed.

Lemma translate_decodes_ids_below_vocab_size_witness :
  let tokenizer_source := Stub.tokenizer 20 in
  let tokenizer_target := Stub.tokenizer 10 in
  let transformer := Stub.scripted 12 [5; 10; 7; 11] in
  value (evaluate "ab" tokenizer_source tokenizer_target 6 transformer)
  = Ok ([10; 5; 10; 7], Stub.attention_of [[10; 5; 10; 7]])
  ∧ ∃ (t_plot : list event) (plotted : nat),
      let kept := filter (λ i, i < vocab_size tokenizer_target) [10; 5; 10; 7] in
      let run := translate "ab" tokenizer_source tokenizer_target 6
                           transformer "decoder_layer1_block2" in
      trace run
      = trace (evaluate "ab" tokenizer_source tokenizer_target 6 transformer)
        ++ Decode Target kept :: t_plot
      ∧ decode_calls Target (trace run)
        = kept :: mjoin (replicate plotted ((λ i, [i]) <$> kept))
      ∧ ("decoder_layer1_block2" = EmptyString →
         t_plot = [] ∧ plotted = 0%nat
         ∧ value run = Ok (decode tokenizer_target kept))
      ∧ (∀ s, value run = Ok s → s = decode tokenizer_target kept)
      ∧ (∀ i, i ∈ kept
              ↔ i ∈ [10; 5; 10; 7] ∧ i < vocab_size tokenizer_target)
      ∧ kept `sublist_of` [10; 5; 10; 7]
      ∧ (vocab_size tokenizer_target ∉ kept)
      ∧ filter (λ i, i < 10) [10; 5; 7; 11] = [5; 7].
Proof.
  intros tokenizer_source tokenizer_target transformer.
  split; [reflexivity|].
  apply (translate_decodes_ids_below_vocab_size
           "ab" tokenizer_source tokenizer_target 6 transformer
           "decoder_layer1_block2" [10; 5; 10; 7]
           (Stub.attention_of [[10; 5; 10; 7]])).
  reflexivity.
Defined.

Example translate_without_plot :
  translate "ab" (Stub.tokenizer 20) (Stub.tokenizer 10) 6
            (Stub.scripted 12 [5; 10; 7; 11]) EmptyString
  = (Ok "fh",
     trace (evaluate "ab" (Stub.tokenizer 20) (Stub.tokenizer 10) 6
                     (Stub.scripted 12 [5; 10; 7; 11]))
     ++ [Decode Target [5; 7]]).
Proof. reflexivity. Qed.

Example translate_with_plot :
  decode_calls Target
    (trace (translate "ab" (Stub.tokenizer 20) (Stub.tokenizer 10) 6
                      (Stub.scripted 12 [5; 10; 7; 11])
                      "decoder_layer1_block2"))
  = [[5; 7]; [5]; [7]].
Proof. reflexivity. Qed.

(** * Further properties *)

(** ** Shapes and values of the masks *)

Section MaskShapes.

Lemma bcast_zip_with {A B C} (f : A → B → C) (xs : list A) (ys : list B) :
  length xs = length ys → bcast f xs ys = zip_with f xs ys.
Proof.
  intros Hlen. unfold bcast.
  destruct xs as [|x [|x' xs]], ys as [|y [|y' ys]]; simplify_eq/=; done.
Qed.

Lemma bcast_Forall {A B C} (f : A → B → C) (P : A → Prop) (Q : B → Prop)
      (R : C → Prop) (xs : list A) (ys : list B) :
  (∀ x y, P x → Q y → R (f x y)) →
  Forall P xs → Forall Q ys → Forall R (bcast f xs ys).
Proof.
  intros Hf Hxs Hys.
  assert (Forall R (zip_with f xs ys)) as Hzip.
  { revert ys Hys. induction Hxs as [|x xs Hx _ IH]; intros ys Hys; [done|].
    destruct Hys as [|y ys Hy Hys]; [done|]. simpl. constructor; auto. }
  unfold bcast.
  destruct xs as [|x [|x' xs]], ys as [|y [|y' ys]]; try done.
  - inversion Hxs; subst. apply Forall_fmap.
    eapply Forall_impl; [exact Hys|]. intros y'' Hy''. by apply Hf.
  - inversion Hys; subst. apply Forall_fmap.
    eapply Forall_impl; [exact Hxs|]. intros x'' Hx''. by apply Hf.
Qed.

Local Abbreviation binary := (λ v : Z, v = 0 ∨ v = 1).

Lemma padding_mask_binary (s : T2 Z) :
  Forall (Forall (Forall (Forall binary))) (create_padding_mask s).
Proof.
  unfold create_padding_mask, newaxis_1_2, tf_cast_float, tf_equal.
  rewrite !Forall_fmap. apply Forall_true. intros row. simpl.
  repeat constructor. rewrite !Forall_fmap. apply Forall_true. intros x.
  simpl. case_bool_decide; auto.
Qed.

Lemma look_ahead_mask_binary (n : nat) :
  Forall (Forall binary) (create_look_ahead_mask n).
Proof.
  apply Forall_lookup. intros i row Hrow.
  assert (i < n)%nat as Hi.
  { apply lookup_lt_Some in Hrow.
    by rewrite (proj1 (look_ahead_mask_shape n)) in Hrow. }
  rewrite look_ahead_mask_row in Hrow by done. injection Hrow as <-.
  rewrite Forall_fmap. apply Forall_true. intros j. simpl.
  case_bool_decide; auto.
Qed.

Lemma zip_with_max_zeros (ys : list Z) :
  Forall binary ys → zip_with Z.max (replicate (length ys) 0) ys = ys.
Proof.
  induction 1 as [|y ys Hy _ IH]; [done|]. simpl. rewrite IH.
  f_equal. destruct Hy as [->| ->]; done.
Qed.

Lemma bcast_max_zeros (n : nat) (m : T2 Z) :
  rectangular n m → Forall (Forall binary) m →
  bcast Z.max (replicate n 0) <$> m = m.
Proof.
  intros Hrect. induction Hrect as [|r m Hr _ IH]; intros Hbin; [done|].
  inversion Hbin as [|? ? Hrbin Hmbin]; simplify_eq. csimpl.
  rewrite IH by done. f_equal.
  rewrite bcast_zip_with by (by rewrite length_replicate).
  by apply zip_with_max_zeros.
Qed.

End MaskShapes.

(** X1.  For a batch [inp] of sequences of length [m] and a batch [tar] of
    sequences of length [n], [create_masks] returns masks of the shapes
    [(len inp, 1, 1, m)], [(len tar, 1, n, n)] and [(len inp, 1, 1, m)]. *)
Theorem create_masks_shape (inp tar : T2 Z) (m n : nat) :
  rectangular m inp → rectangular n tar →
  ∃ enc_padding_mask combined_mask dec_padding_mask : T4 Z,
    create_masks inp tar = (enc_padding_mask, combined_mask, dec_padding_mask)
    ∧ dec_padding_mask = enc_padding_mask
    ∧ length enc_padding_mask = length inp
    ∧ Forall (λ e, ∃ r : list Z, e = [[r]] ∧ length r = m) enc_padding_mask
    ∧ length combined_mask = length tar
    ∧ Forall (λ c, ∃ mat : T2 Z,
                c = [mat] ∧ length mat = n ∧ rectangular n mat)
             combined_mask.
Proof.
  intros Hinp Htar. unfold create_masks. do 3 eexists.
  split; [done|]. split; [done|].
  split.
  { unfold create_padding_mask, newaxis_1_2, tf_cast_float, tf_equal.
    by rewrite !length_fmap. }
  split.
  { apply Forall_lookup. intros b e He.
    rewrite padding_mask_lookup in He.
    destruct (inp !! b) as [row|] eqn:Hb; simplify_eq/=.
    eexists. split; [done|]. rewrite length_fmap.
    by apply (Forall_lookup_1 _ _ _ _ Hinp Hb). }
  split.
  { unfold tf_maximum, create_padding_mask, newaxis_1_2, tf_cast_float,
      tf_equal. by rewrite !length_fmap. }
  apply Forall_lookup. intros b c Hc.
  unfold tf_maximum in Hc.
  rewrite list_lookup_fmap, padding_mask_lookup in Hc.
  destruct (tar !! b) as [row|] eqn:Hb; simplify_eq/=.
  destruct (rectangular_shape1 n b tar row Htar Hb) as [Hlen ->].
  destruct (look_ahead_mask_shape n) as [Hla Hrect].
  eexists. split; [done|]. split; [by rewrite length_fmap|].
  apply Forall_fmap. eapply Forall_impl; [exact Hrect|].
  intros larow Hlarow. simpl in *.
  rewrite bcast_zip_with by (rewrite length_fmap; lia).
  rewrite length_zip_with_l_eq; rewrite length_fmap; lia.
Qed.

Lemma create_masks_shape_witness :
  (rectangular 3 [[4; 9; 0]; [1; 0; 0]] ∧ rectangular 2 [[5; 0]; [8; 9]])
  ∧ ∃ enc_padding_mask combined_mask dec_padding_mask : T4 Z,
      create_masks [[4; 9; 0]; [1; 0; 0]] [[5; 0]; [8; 9]]
      = (enc_padding_mask, combined_mask, dec_padding_mask)
      ∧ dec_padding_mask = enc_padding_mask
      ∧ length enc_padding_mask = length [[4; 9; 0]; [1; 0; 0]]
      ∧ Forall (λ e, ∃ r : list Z, e = [[r]] ∧ length r = 3%nat)
               enc_padding_mask
      ∧ length combined_mask = length [[5; 0]; [8; 9]]
      ∧ Forall (λ c, ∃ mat : T2 Z,
                  c = [mat] ∧ length mat = 2%nat ∧ rectangular 2 mat)
               combined_mask.
Proof.
  assert (rectangular 3 [[4; 9; 0]; [1; 0; 0]]) as Hinp by (repeat constructor).
  assert (rectangular 2 [[5; 0]; [8; 9]]) as Htar by (repeat constructor).
  split; [by split|].
  exact (create_masks_shape [[4; 9; 0]; [1; 0; 0]] [[5; 0]; [8; 9]] 3 2
                            Hinp Htar).
Defined.

(** X2.  Every entry of each of the three masks returned by [create_masks]
    is 0 or 1, whatever the inputs. *)
Theorem create_masks_binary (inp tar : T2 Z) :
  ∃ enc_padding_mask combined_mask dec_padding_mask : T4 Z,
    create_masks inp tar = (enc_padding_mask, combined_mask, dec_padding_mask)
    ∧ Forall (Forall (Forall (Forall (λ v, v = 0 ∨ v = 1)))) enc_padding_mask
    ∧ Forall (Forall (Forall (Forall (λ v, v = 0 ∨ v = 1)))) combined_mask
    ∧ Forall (Forall (Forall (Forall (λ v, v = 0 ∨ v = 1)))) dec_padding_mask.
Proof.
  unfold create_masks. do 3 eexists. split; [done|].
  split; [apply padding_mask_binary|]. split; [|apply padding_mask_binary].
  unfold tf_maximum. apply Forall_fmap.
  eapply Forall_impl; [apply (padding_mask_binary tar)|].
  intros a_b Ha_b. simpl. apply Forall_fmap.
  eapply Forall_impl; [exact Ha_b|]. intros a_h Ha_h. simpl.
  eapply (bcast_Forall _ (Forall (λ v, v = 0 ∨ v = 1))
                       (Forall (λ v, v = 0 ∨ v = 1)));
    [|exact Ha_h|apply look_ahead_mask_binary].
  intros xs ys Hxs Hys.
  eapply bcast_Forall; [|exact Hxs|exact Hys].
  intros x y [->| ->] [->| ->]; simpl; auto.
Qed.

(** X3.  When a sequence of the decoder input holds no pad id (0), its
    combined mask is the look-ahead mask alone: only future positions are
    blocked. *)
Theorem create_masks_without_padding (inp tar : T2 Z) (n b : nat)
    (row : list Z) :
  rectangular n tar → tar !! b = Some row → 0 ∉ row →
  (create_masks inp tar).1.2 !! b = Some [create_look_ahead_mask n].
Proof.
  intros Hrect Hb Hpad.
  destruct (rectangular_shape1 n b tar row Hrect Hb) as [Hlen Hshape].
  unfold create_masks. simpl. rewrite Hshape. unfold tf_maximum.
  rewrite list_lookup_fmap, padding_mask_lookup, Hb. simpl.
  do 2 f_equal.
  assert ((λ x : Z, if bool_decide (x = 0) then 1 else 0) <$> row
          = replicate n 0) as ->.
  { rewrite <- Hlen. clear Hlen Hb. induction row as [|x row IH]; [done|].
    rewrite not_elem_of_cons in Hpad. destruct Hpad as [Hx Hrow]. csimpl.
    rewrite bool_decide_eq_false_2 by done. by rewrite IH. }
  apply bcast_max_zeros;
    [apply look_ahead_mask_shape|apply look_ahead_mask_binary].
Qed.

Lemma create_masks_without_padding_witness :
  (rectangular 3 [[5; 2; 6]; [8; 9; 0]]
   ∧ [[5; 2; 6]; [8; 9; 0]] !! 0%nat = Some [5; 2; 6]
   ∧ 0 ∉ [5; 2; 6])
  ∧ (create_masks [[4; 9; 0]] [[5; 2; 6]; [8; 9; 0]]).1.2 !! 0%nat
    = Some [create_look_ahead_mask 3].
Proof.
  assert (rectangular 3 [[5; 2; 6]; [8; 9; 0]]) as Hrect
    by (repeat constructor).
  assert (0 ∉ [5; 2; 6]) as Hpad.
  { rewrite !not_elem_of_cons. repeat split; try lia. apply not_elem_of_nil. }
  split; [repeat split; done|].
  exact (create_masks_without_padding [[4; 9; 0]] [[5; 2; 6]; [8; 9; 0]]
                                      3 0 [5; 2; 6] Hrect eq_refl Hpad).
Defined.

(** ** The calls that [evaluate] makes *)

Section EvaluateCalls.
Context {logit weight : Type} `{Logit logit}.
Variable tokenizer_target : SubwordTextEncoder.
Variable transformer : Transformer logit weight.
Variable encoder_input : T2 Z.

Local Abbreviation loop :=
  (evaluate_loop tokenizer_target transformer encoder_input).
Local Abbreviation step := (predict transformer encoder_input).

Lemma predict_invocation (output : T2 Z) :
  trace (step output) = [invocation encoder_input output].
Proof.
  destruct (predict_trace transformer encoder_input output)
    as (m1 & m2 & m3 & Hmasks & ->).
  unfold invocation. by rewrite Hmasks.
Qed.

(** A predicted id that lets the loop go on is a single id. *)
Lemma tensor_truth_single (pid : T2 Z) (c : Z) (b : bool) (r : list Z)
      (output' : T2 Z) :
  value (tensor_truth (tf_equal pid c)) = Ok b →
  value (tf_concat [r] pid) = Ok output' →
  ∃ x, pid = [[x]] ∧ output' = [r ++ [x]] ∧ b = bool_decide (x = c).
Proof.
  intros Hstop Hcat. unfold tf_concat in Hcat. case_decide; simplify_eq/=.
  destruct pid as [|p [|p' pid]]; simplify_eq/=.
  unfold tensor_truth, tf_equal in Hstop. simpl in Hstop.
  rewrite app_nil_r in Hstop.
  destruct p as [|x [|y p]]; simplify_eq/=. eauto.
Qed.

(** The invocations of a run of the loop that returns [row]: one per
    iteration, each on the ids of [row] known so far. *)
Lemma loop_invocations (n : nat) :
  ∀ (r : list Z) (a : option (Attention weight)) row aw,
    value (loop n [r] a) = Ok (row, aw) →
    ∃ c : nat,
      trace (loop n [r] a)
      = (λ k : nat, invocation encoder_input [take (length r + k) row])
          <$> seq 0 c.
Proof.
  induction n as [|n IH]; intros r a row aw Hrun.
  - exists 0%nat. simpl in *. by destruct a.
  - pose proof (loop_extends _ _ _ _ _ _ _ _ Hrun) as [Hpre _].
    cbn [evaluate_loop] in *.
    rewrite bind_trace, predict_invocation.
    rewrite bind_value in Hrun.
    destruct (value (step [r])) as [[pid aw']|e]; [|done].
    rewrite bind_trace. rewrite bind_value in Hrun.
    assert (trace (tensor_truth
                     (tf_equal pid (vocab_size tokenizer_target + 1))) = [])
      as -> by (unfold tensor_truth; by repeat case_match).
    destruct (value (tensor_truth _)) as [stop|e] eqn:Hstop; [|done].
    assert (take (length r + 0) row = r) as Hfirst.
    { destruct Hpre as [ids ->]. by rewrite Nat.add_0_r, take_app_length. }
    destruct stop.
    + exists 1%nat. simpl. by rewrite Hfirst.
    + rewrite bind_trace. rewrite bind_value in Hrun.
      destruct (value (tf_concat [r] pid)) as [output'|e] eqn:Hcat; [|done].
      destruct (tensor_truth_single _ _ _ _ _ Hstop Hcat) as (x & -> & -> & _).
      assert (trace (tf_concat [r] [[x]]) = []) as -> by done.
      destruct (IH _ _ _ _ Hrun) as [c ->].
      exists (S c). cbn [seq fmap list_fmap app]. rewrite Hfirst. f_equal.
      rewrite <- fmap_S_seq, <- list_fmap_compose.
      apply list_fmap_ext. intros _ k _. simpl.
      rewrite length_app. simpl. do 3 f_equal. lia.
Qed.

Lemma model_calls_invocations (f : nat → T2 Z) (l : list nat) :
  model_calls ((λ k, invocation encoder_input (f k)) <$> l) = length l.
Proof.
  unfold model_calls. induction l as [|k l IH]; [done|].
  rewrite fmap_cons, filter_cons_True; [simpl; by rewrite IH|].
  unfold invocation. by destruct (create_masks _ _) as [[? ?] ?].
Qed.

(** Whatever its outcome, the loop invokes the model in inference mode, on
    the one encoder input, with the masks of [create_masks]. *)
Lemma loop_invokes (n : nat) :
  ∀ (output : T2 Z) (a : option (Attention weight)),
    Forall (λ e, ∃ output', e = invocation encoder_input output')
           (trace (loop n output a)).
Proof.
  induction n as [|n IH]; intros output a.
  - simpl. destruct output as [|r [|r' output]], a; simpl; constructor.
  - cbn [evaluate_loop]. rewrite bind_trace, predict_invocation.
    constructor; [by eexists|].
    destruct (value (step output)) as [[pid aw]|e]; [|constructor].
    rewrite bind_trace.
    assert (trace (tensor_truth
                     (tf_equal pid (vocab_size tokenizer_target + 1))) = [])
      as -> by (unfold tensor_truth; by repeat case_match).
    cbn [app].
    destruct (value (tensor_truth _)) as [[|]|e]; [| |constructor].
    + destruct output as [|r [|r' output]]; simpl; constructor.
    + rewrite bind_trace.
      assert (trace (tf_concat output pid) = []) as ->
        by (unfold tf_concat; by case_decide).
      cbn [app]. destruct (value (tf_concat output pid)); [apply IH|constructor].
Qed.

End EvaluateCalls.

(** X4.  When [evaluate] returns the sequence [row], its trace is the call
    that encodes the sentence followed by the model invocations, and the
    invocation number [k] (from 0) is made in inference mode on the encoder
    input built from the sentence, on the first [k + 1] ids of [row] as
    decoder input, and with the masks that [create_masks] builds from these
    two: the decoder input grows by one id per invocation and is never
    rewritten. *)
Theorem evaluate_invocations {logit weight : Type} `{Logit logit}
    (inp_sentence : string)
    (tokenizer_source tokenizer_target : SubwordTextEncoder)
    (max_length_pred : Z) (transformer : Transformer logit weight)
    (row : list Z) (aw : Attention weight) :
  let run := evaluate inp_sentence tokenizer_source tokenizer_target
                      max_length_pred transformer in
  value run = Ok (row, aw) →
  trace run
  = Encode Source inp_sentence
    :: ((λ k : nat, invocation (encoder_input_of tokenizer_source inp_sentence)
                               [take (S k) row])
        <$> seq 0 (model_calls (trace run))).
Proof.
  intros run Hrun. unfold run in *. rewrite evaluate_run in *. simpl in Hrun.
  destruct (loop_invocations _ _ _ _ _ _ _ _ Hrun) as [c Hc].
  cbn [trace snd]. rewrite Hc.
  change (model_calls (Encode Source inp_sentence :: ?t))
    with (model_calls t).
  by rewrite model_calls_invocations, length_seq.
Qed.

Lemma evaluate_invocations_witness :
  let tokenizer_source := Stub.tokenizer 20 in
  let tokenizer_target := Stub.tokenizer 10 in
  let transformer := Stub.scripted 12 [5; 7; 11; 2] in
  let run := evaluate "hi" tokenizer_source tokenizer_target 5 transformer in
  value run = Ok ([10; 5; 7], Stub.attention_of [[10; 5; 7]])
  ∧ trace run
    = Encode Source "hi"
      :: ((λ k : nat, invocation (encoder_input_of tokenizer_source "hi")
                                 [take (S k) [10; 5; 7]])
          <$> seq 0 (model_calls (trace run))).
Proof.
  intros tokenizer_source tokenizer_target transformer run.
  split; [reflexivity|].
  apply (evaluate_invocations "hi" tokenizer_source tokenizer_target 5
                              transformer [10; 5; 7]
                              (Stub.attention_of [[10; 5; 7]])).
  reflexivity.
Defined.

(** X5.  Whatever its inputs and its outcome, [evaluate] calls [encode] of
    the source tokenizer once, first, and then only the model, each time in
    inference mode, on the encoder input built from the sentence and with
    the masks of [create_masks]; it never calls [decode]. *)
Theorem evaluate_calls {logit weight : Type} `{Logit logit}
    (inp_sentence : string)
    (tokenizer_source tokenizer_target : SubwordTextEncoder)
    (max_length_pred : Z) (transformer : Transformer logit weight) :
  ∃ t : list event,
    trace (evaluate inp_sentence tokenizer_source tokenizer_target
                    max_length_pred transformer)
    = Encode Source inp_sentence :: t
    ∧ Forall (λ e, ∃ output : T2 Z,
                e = invocation (encoder_input_of tokenizer_source inp_sentence)
                               output) t
    ∧ ∀ tok : side,
        decode_calls tok
          (trace (evaluate inp_sentence tokenizer_source tokenizer_target
                           max_length_pred transformer)) = [].
Proof.
  eexists. split; [by rewrite evaluate_run|].
  split; [apply loop_invokes|].
  intros tok. apply evaluate_decode_calls.
Qed.

(** ** The ids that the loop selects *)

Section SelectedIds.
Context {logit weight : Type} `{Logit logit}.

Lemma argmax_from_bound (l : list logit) :
  ∀ (best : logit) (best_i i : nat),
    (best_i < i)%nat → (argmax_from best best_i i l < i + length l)%nat.
Proof.
  induction l as [|x l IH]; intros best best_i i Hi; simpl; [lia|].
  destruct (logit_ltb best x).
  - specialize (IH x i (S i)). lia.
  - specialize (IH best best_i (S i)). lia.
Qed.

Lemma wrap_int32_small (z : Z) : 0 ≤ z < 2 ^ 31 → wrap_int32 z = z.
Proof. intros Hz. unfold wrap_int32. rewrite Z.mod_small; lia. Qed.

(** The value of [predict] when the last position holds the logits [last]. *)
Lemma predict_last (transformer : Transformer logit weight)
      (encoder_input output : T2 Z) (rows : T2 logit) (last : list logit)
      (pid : T2 Z) (aw : Attention weight) :
  (transformer encoder_input output false
               (create_masks encoder_input output).1.1
               (create_masks encoder_input output).1.2
               (create_masks encoder_input output).2).1
  = [rows ++ [last]] →
  value (predict transformer encoder_input output) = Ok (pid, aw) →
  ∃ (x : logit) (l : list logit),
    last = x :: l
    ∧ pid = [[wrap_int32 (Z.of_nat (argmax_from x 0 1 l))]].
Proof.
  intros Hlast Hstep. unfold predict in Hstep.
  destruct (create_masks encoder_input output) as [[m1 m2] m3].
  simpl in Hlast. unfold call in Hstep.
  rewrite (bind_ok _ _ _ _ eq_refl) in Hstep.
  destruct (transformer _ _ _ _ _ _) as [predictions aw'].
  simpl in Hlast. subst predictions. cbv beta iota zeta in Hstep.
  rewrite slice_last_snoc in Hstep. unfold tf_argmax in Hstep.
  destruct last as [|x l]; [done|]. simpl in Hstep. simplify_eq. eauto.
Qed.

Lemma predict_in_range (width : nat) (transformer : Transformer logit weight)
      (encoder_input : T2 Z) (r : list Z) (pid : T2 Z) (aw : Attention weight) :
  Z.of_nat width ≤ 2 ^ 31 → logits_width width transformer → r ≠ [] →
  value (predict transformer encoder_input [r]) = Ok (pid, aw) →
  ∃ id, pid = [[id]] ∧ 0 ≤ id < Z.of_nat width.
Proof.
  intros Hwidth Hmodel Hr Hstep.
  destruct (Hmodel encoder_input r false
              (create_masks encoder_input [r]).1.1
              (create_masks encoder_input [r]).1.2
              (create_masks encoder_input [r]).2 Hr)
    as (rows & last & Hlast & Hlen).
  destruct (predict_last _ _ _ _ _ _ _ Hlast Hstep) as (x & l & -> & ->).
  pose proof (argmax_from_bound l x 0 1 ltac:(lia)) as Hbound.
  simpl in Hlen. eexists. split; [done|].
  rewrite wrap_int32_small; lia.
Qed.

Lemma loop_ids_in_range (width : nat) (tokenizer_target : SubwordTextEncoder)
      (transformer : Transformer logit weight) (encoder_input : T2 Z)
      (n : nat) :
  Z.of_nat width ≤ 2 ^ 31 → logits_width width transformer →
  ∀ (r : list Z) (a : option (Attention weight)) row aw,
    r ≠ [] →
    value (evaluate_loop tokenizer_target transformer encoder_input n [r] a)
    = Ok (row, aw) →
    ∃ ids, row = r ++ ids ∧ Forall (λ id, 0 ≤ id < Z.of_nat width) ids.
Proof.
  intros Hwidth Hmodel.
  induction n as [|n IH]; intros r a row aw Hr Hrun.
  - simpl in Hrun. destruct a; simplify_eq/=. exists []. by rewrite app_nil_r.
  - simpl in Hrun.
    apply bind_value_ok in Hrun as ([pid aw'] & Hstep & Hrun & _).
    apply bind_value_ok in Hrun as (stop & Hstop & Hrun & _).
    destruct stop.
    { simplify_eq/=. exists []. by rewrite app_nil_r. }
    apply bind_value_ok in Hrun as (output' & Hcat & Hrun & _).
    destruct (predict_in_range width _ _ _ _ _ Hwidth Hmodel Hr Hstep)
      as (id & -> & Hid).
    unfold tf_concat in Hcat. simplify_eq/=.
    apply IH in Hrun as (ids & -> & Hids); [|by destruct r].
    exists (id :: ids). rewrite <- app_assoc. split; [done|]. by constructor.
Qed.

End SelectedIds.

(** X6.  When the logits of the model range over at most [width] ids (with
    [width] within the [int32] range), the sequence that [evaluate] returns
    is the start sentinel followed by ids that are indices into the logits:
    each of them is at least 0 and less than [width]. *)
Theorem evaluate_ids_in_range {logit weight : Type} `{Logit logit}
    (width : nat) (inp_sentence : string)
    (tokenizer_source tokenizer_target : SubwordTextEncoder)
    (max_length_pred : Z) (transformer : Transformer logit weight)
    (row : list Z) (aw : Attention weight) :
  Z.of_nat width ≤ 2 ^ 31 → logits_width width transformer →
  value (evaluate inp_sentence tokenizer_source tokenizer_target
                  max_length_pred transformer) = Ok (row, aw) →
  ∃ ids : list Z,
    row = vocab_size tokenizer_target :: ids
    ∧ Forall (λ id, 0 ≤ id < Z.of_nat width) ids.
Proof.
  intros Hwidth Hmodel Hrun. rewrite evaluate_run in Hrun. simpl in Hrun.
  by apply (loop_ids_in_range width) in Hrun.
Qed.

Lemma scripted_logits_width (size : nat) (script : list Z) :
  logits_width (S size) (Stub.scripted (S size) script).
Proof.
  intros inp row training m1 m2 m3 Hrow.
  destruct row as [|z row _] using rev_ind; [done|].
  rewrite scripted_snoc. do 2 eexists. split; [done|].
  unfold Stub.one_hot. rewrite length_fmap, length_seq. lia.
Qed.

Lemma evaluate_ids_in_range_witness :
  let tokenizer_source := Stub.tokenizer 20 in
  let tokenizer_target := Stub.tokenizer 10 in
  let transformer := Stub.scripted 12 [5; 7; 11; 2] in
  (Z.of_nat 12 ≤ 2 ^ 31 ∧ logits_width 12 transformer
   ∧ value (evaluate "hi" tokenizer_source tokenizer_target 5 transformer)
     = Ok ([10; 5; 7], Stub.attention_of [[10; 5; 7]]))
  ∧ ∃ ids : list Z,
      [10; 5; 7] = vocab_size tokenizer_target :: ids
      ∧ Forall (λ id, 0 ≤ id < Z.of_nat 12) ids.
Proof.
  intros tokenizer_source tokenizer_target transformer.
  assert (logits_width 12 transformer) as Hmodel
    by apply scripted_logits_width.
  assert (Z.of_nat 12 ≤ 2 ^ 31) as Hwidth by (vm_compute; discriminate).
  split; [split; [exact Hwidth|split; [exact Hmodel|reflexivity]]|].
  apply (evaluate_ids_in_range 12 "hi" tokenizer_source tokenizer_target 5
                               transformer [10; 5; 7]
                               (Stub.attention_of [[10; 5; 7]]) Hwidth Hmodel).
  reflexivity.
Defined.

(** ** Greedy selection *)

Lemma argmax_from_first_max (l : list Z) :
  ∀ (pre : list Z) (best : Z) (best_i : nat),
    pre !! best_i = Some best →
    Forall (λ w, w ≤ best) pre →
    Forall (λ w, w < best) (take best_i pre) →
    ∃ v : Z,
      (pre ++ l) !! argmax_from best best_i (length pre) l = Some v
      ∧ Forall (λ w, w ≤ v) (pre ++ l)
      ∧ Forall (λ w, w < v)
               (take (argmax_from best best_i (length pre) l) (pre ++ l)).
Proof.
  induction l as [|x l IH]; intros pre best best_i Hbest Hle Hlt.
  - simpl. rewrite app_nil_r. eauto.
  - simpl. unfold logit_ltb, Z_logit.
    replace (pre ++ x :: l) with ((pre ++ [x]) ++ l) by by rewrite <- app_assoc.
    replace (S (length pre)) with (length (pre ++ [x]))
      by (rewrite length_app; simpl; lia).
    destruct (Z.ltb_spec best x) as [Hx|Hx].
    + apply IH.
      * by rewrite lookup_app_r, Nat.sub_diag.
      * apply Forall_app. split; [|by repeat constructor].
        eapply Forall_impl; [exact Hle|]. simpl. lia.
      * rewrite take_app_length.
        eapply Forall_impl; [exact Hle|]. simpl. lia.
    + pose proof (lookup_lt_Some _ _ _ Hbest) as Hi.
      apply IH.
      * by rewrite lookup_app_l.
      * apply Forall_app. split; [done|]. repeat constructor. lia.
      * rewrite take_app_le by lia. done.
Qed.

(** X7.  With integer logits, the id that the loop body selects is the
    greedy choice over the logits [last] of the last position: it is the
    index of an entry of [last] that no entry exceeds, and the first such
    index, every earlier entry being strictly smaller. *)
Theorem predict_greedy {weight : Type}
    (transformer : Transformer Z weight) (encoder_input output : T2 Z)
    (rows : T2 Z) (last : list Z) (id : Z) (aw : Attention weight) :
  (transformer encoder_input output false
               (create_masks encoder_input output).1.1
               (create_masks encoder_input output).1.2
               (create_masks encoder_input output).2).1
  = [rows ++ [last]] →
  Z.of_nat (length last) ≤ 2 ^ 31 →
  value (predict transformer encoder_input output) = Ok ([[id]], aw) →
  ∃ v : Z,
    0 ≤ id
    ∧ last !! Z.to_nat id = Some v
    ∧ Forall (λ w, w ≤ v) last
    ∧ Forall (λ w, w < v) (take (Z.to_nat id) last).
Proof.
  intros Hlast Hlen Hstep.
  destruct (predict_last _ _ _ _ _ _ _ Hlast Hstep) as (x & l & -> & Hid).
  simplify_eq.
  pose proof (argmax_from_bound l x 0 1 ltac:(lia)) as Hbound.
  simpl in Hlen. rewrite wrap_int32_small by lia. rewrite Nat2Z.id.
  destruct (argmax_from_first_max l [x] x 0 eq_refl) as (v & Hv & Hmax & Hfirst).
  - repeat constructor. lia.
  - constructor.
  - exists v. split; [lia|]. done.
Qed.

Lemma predict_greedy_witness :
  let transformer : Transformer Z Z :=
    λ inp tar training m1 m2 m3,
      ([[[0; 0; 0]; [2; 9; 4; 9; 1]]], Stub.attention_of tar) in
  ((transformer [[20; 21]] [[10; 3]] false
                (create_masks [[20; 21]] [[10; 3]]).1.1
                (create_masks [[20; 21]] [[10; 3]]).1.2
                (create_masks [[20; 21]] [[10; 3]]).2).1
   = [[[0; 0; 0]] ++ [[2; 9; 4; 9; 1]]]
   ∧ Z.of_nat (length [2; 9; 4; 9; 1]) ≤ 2 ^ 31
   ∧ value (predict transformer [[20; 21]] [[10; 3]])
     = Ok ([[1]], Stub.attention_of [[10; 3]]))
  ∧ ∃ v : Z,
      0 ≤ 1
      ∧ [2; 9; 4; 9; 1] !! Z.to_nat 1 = Some v
      ∧ Forall (λ w, w ≤ v) [2; 9; 4; 9; 1]
      ∧ Forall (λ w, w < v) (take (Z.to_nat 1) [2; 9; 4; 9; 1]).
Proof.
  intros transformer.
  assert (Z.of_nat (length [2; 9; 4; 9; 1]) ≤ 2 ^ 31) as Hlen
    by (vm_compute; discriminate).
  split; [split; [reflexivity|split; [exact Hlen|reflexivity]]|].
  apply (predict_greedy transformer [[20; 21]] [[10; 3]] [[0; 0; 0]]
                        [2; 9; 4; 9; 1] 1 (Stub.attention_of [[10; 3]])
                        eq_refl Hlen).
  reflexivity.
Defined.

(** ** Failures and bounds of [translate] *)

Section TranslateRuns.
Context {logit weight : Type} `{Logit logit}.
Variable inp_sentence : string.
Variables tokenizer_source tokenizer_target : SubwordTextEncoder.
Variable max_length_pred : Z.
Variable transformer : Transformer logit weight.

Local Abbreviation ev :=
  (evaluate inp_sentence tokenizer_source tokenizer_target
            max_length_pred transformer).
Local Abbreviation kept_of result :=
  (filter (λ i, i < vocab_size tokenizer_target) result).

(** A run of [translate] after a run of [evaluate] that returned. *)
Lemma translate_run (plot : string) (result : list Z) (aw : Attention weight) :
  value ev = Ok (result, aw) →
  let plotting : M unit :=
    if bool_decide (plot = EmptyString) then mret tt
    else plot_attention_weights aw inp_sentence result plot
                                tokenizer_source tokenizer_target in
  translate inp_sentence tokenizer_source tokenizer_target
            max_length_pred transformer plot
  = (match value plotting with
     | Ok _ => Ok (decode tokenizer_target (kept_of result))
     | Raise e => Raise e
     end,
     trace ev ++ Decode Target (kept_of result) :: trace plotting).
Proof.
  intros Hev plotting. unfold translate.
  destruct ev as [r t]. simpl in Hev. subst r.
  rewrite (bind_ok _ _ _ _ eq_refl). cbn [value trace fst snd].
  unfold tok_decode. rewrite (bind_ok _ _ _ _ eq_refl).
  cbn [value trace fst snd]. fold plotting.
  rewrite bind_value, bind_trace.
  destruct plotting as [[[]|e] tp]; simpl; by rewrite ?app_nil_r.
Qed.

Lemma translate_raise (plot : string) (e : exn) :
  value ev = Raise e →
  translate inp_sentence tokenizer_source tokenizer_target
            max_length_pred transformer plot
  = (Raise e, trace ev).
Proof.
  intros Hev. unfold translate. destruct ev as [r t]. simpl in Hev. by subst r.
Qed.

(** The ids decoded are fewer than the ids returned: the start sentinel goes. *)
Lemma kept_length (result : list Z) (aw : Attention weight) :
  value ev = Ok (result, aw) →
  (length (kept_of result) < length result)%nat
  ∧ Z.of_nat (length (kept_of result)) ≤ max_length_pred.
Proof.
  intros Hev. rewrite evaluate_run in Hev. simpl in Hev.
  assert (0 < max_length_pred) as Hmax
    by (destruct (Z.to_nat max_length_pred) eqn:Hn; [done|lia]).
  apply loop_extends in Hev as [[rest ->] Hlen].
  assert (length (kept_of ([vocab_size tokenizer_target] ++ rest))
          < length ([vocab_size tokenizer_target] ++ rest))%nat as Hlt.
  { apply (length_filter_lt _ _ (vocab_size tokenizer_target)); [|lia].
    apply elem_of_app. left. by apply list_elem_of_singleton. }
  split; [done|]. simpl in *. lia.
Qed.

End TranslateRuns.

(** X8.  When [evaluate] raises, [translate] raises the same exception with
    the same trace, whatever [plot] is: nothing is decoded and nothing is
    plotted.  This is what a non-positive [max_length_pred] leads to. *)
Theorem translate_propagates_error {logit weight : Type} `{Logit logit}
    (inp_sentence : string)
    (tokenizer_source tokenizer_target : SubwordTextEncoder)
    (max_length_pred : Z) (transformer : Transformer logit weight)
    (plot : string) (e : exn) :
  value (evaluate inp_sentence tokenizer_source tokenizer_target
                  max_length_pred transformer) = Raise e →
  translate inp_sentence tokenizer_source tokenizer_target
            max_length_pred transformer plot
  = (Raise e,
     trace (evaluate inp_sentence tokenizer_source tokenizer_target
                     max_length_pred transformer))
  ∧ (∀ tok : side,
       decode_calls tok
         (trace (translate inp_sentence tokenizer_source tokenizer_target
                           max_length_pred transformer plot)) = [])
  ∧ axes_count (trace (translate inp_sentence tokenizer_source
                                 tokenizer_target max_length_pred
                                 transformer plot)) = 0%nat.
Proof.
  intros Hev. rewrite (translate_raise _ _ _ _ _ plot e Hev).
  split; [done|]. cbn [trace snd]. split.
  - intros tok. apply evaluate_decode_calls.
  - rewrite evaluate_run. cbn [trace snd]. unfold axes_count.
    change (filter ?P (Encode Source inp_sentence :: ?t)) with (filter P t).
    destruct (loop_trace tokenizer_target transformer
                (encoder_input_of tokenizer_source inp_sentence)
                (Z.to_nat max_length_pred)
                [[vocab_size tokenizer_target]] None) as [Hinv _].
    induction Hinv as [|e' t He' _ IH]; [done|].
    destruct e'; try done.
Qed.

Lemma translate_propagates_error_witness :
  let tokenizer_source := Stub.tokenizer 20 in
  let tokenizer_target := Stub.tokenizer 10 in
  let transformer := Stub.scripted 12 [5; 7; 11; 2] in
  value (evaluate "hi" tokenizer_source tokenizer_target 0 transformer)
  = Raise (UnboundLocalError "attention_weights")
  ∧ translate "hi" tokenizer_source tokenizer_target 0 transformer
              "decoder_layer1_block2"
    = (Raise (UnboundLocalError "attention_weights"),
       trace (evaluate "hi" tokenizer_source tokenizer_target 0 transformer))
  ∧ (∀ tok : side,
       decode_calls tok
         (trace (translate "hi" tokenizer_source tokenizer_target 0
                           transformer "decoder_layer1_block2")) = [])
  ∧ axes_count (trace (translate "hi" tokenizer_source tokenizer_target 0
                                 transformer "decoder_layer1_block2"))
    = 0%nat.
Proof.
  intros tokenizer_source tokenizer_target transformer.
  split; [reflexivity|].
  apply (translate_propagates_error
           "hi" tokenizer_source tokenizer_target 0 transformer
           "decoder_layer1_block2" (UnboundLocalError "attention_weights")).
  reflexivity.
Defined.

(** X9.  When [plot] names a layer that the attention weights do not hold,
    [translate] raises [KeyError] for that name: by then the result has been
    decoded, a figure opened and the sentence encoded a second time, and the
    decoded sentence is lost. *)
Theorem translate_missing_layer {logit weight : Type} `{Logit logit}
    (inp_sentence : string)
    (tokenizer_source tokenizer_target : SubwordTextEncoder)
    (max_length_pred : Z) (transformer : Transformer logit weight)
    (plot : string) (result : list Z) (aw : Attention weight) :
  value (evaluate inp_sentence tokenizer_source tokenizer_target
                  max_length_pred transformer) = Ok (result, aw) →
  plot ≠ EmptyString → aw !! plot = None →
  translate inp_sentence tokenizer_source tokenizer_target
            max_length_pred transformer plot
  = (Raise (KeyError plot),
     trace (evaluate inp_sentence tokenizer_source tokenizer_target
                     max_length_pred transformer)
     ++ [Decode Target (filter (λ i, i < vocab_size tokenizer_target) result);
         PltFigure; Encode Source inp_sentence]).
Proof.
  intros Hev Hplot Hlayer.
  rewrite (translate_run _ _ _ _ _ plot result aw Hev).
  rewrite bool_decide_eq_false_2 by done.
  unfold plot_attention_weights, emit, tok_encode.
  rewrite (bind_ok _ _ _ _ eq_refl). cbn [value trace fst snd].
  rewrite (bind_ok _ _ _ _ eq_refl). cbn [value trace fst snd].
  unfold dict_get. rewrite Hlayer. done.
Qed.

Lemma translate_missing_layer_witness :
  let tokenizer_source := Stub.tokenizer 20 in
  let tokenizer_target := Stub.tokenizer 10 in
  let transformer := Stub.scripted 12 [5; 7; 11; 2] in
  (value (evaluate "hi" tokenizer_source tokenizer_target 5 transformer)
   = Ok ([10; 5; 7], Stub.attention_of [[10; 5; 7]])
   ∧ "encoder_layer9" ≠ EmptyString
   ∧ Stub.attention_of [[10; 5; 7]] !! "encoder_layer9" = None)
  ∧ translate "hi" tokenizer_source tokenizer_target 5 transformer
              "encoder_layer9"
    = (Raise (KeyError "encoder_layer9"),
       trace (evaluate "hi" tokenizer_source tokenizer_target 5 transformer)
       ++ [Decode Target
                  (filter (λ i, i < vocab_size tokenizer_target) [10; 5; 7]);
           PltFigure; Encode Source "hi"]).
Proof.
  intros tokenizer_source tokenizer_target transformer.
  assert ("encoder_layer9" ≠ EmptyString) as Hplot by discriminate.
  split; [split; [reflexivity|split; [exact Hplot|reflexivity]]|].
  apply (translate_missing_layer
           "hi" tokenizer_source tokenizer_target 5 transformer
           "encoder_layer9" [10; 5; 7] (Stub.attention_of [[10; 5; 7]]));
    [reflexivity|exact Hplot|reflexivity].
Defined.

(** X10.  The id list that [translate] hands to [decode] of the target
    tokenizer, its first call to it, holds at most [max_length_pred] ids,
    and fewer ids than [evaluate] returned. *)
Theorem translate_decodes_at_most_max_length
    {logit weight : Type} `{Logit logit}
    (inp_sentence : string)
    (tokenizer_source tokenizer_target : SubwordTextEncoder)
    (max_length_pred : Z) (transformer : Transformer logit weight)
    (plot : string) (result : list Z) (aw : Attention weight) :
  value (evaluate inp_sentence tokenizer_source tokenizer_target
                  max_length_pred transformer) = Ok (result, aw) →
  ∃ ids : list Z,
    decode_calls Target
      (trace (translate inp_sentence tokenizer_source tokenizer_target
                        max_length_pred transformer plot)) !! 0%nat
    = Some ids
    ∧ Z.of_nat (length ids) ≤ max_length_pred
    ∧ (length ids < length result)%nat.
Proof.
  intros Hev.
  destruct (kept_length _ _ _ _ _ result aw Hev) as [Hlt Hmax].
  exists (filter (λ i, i < vocab_size tokenizer_target) result).
  split; [|by split].
  rewrite (translate_run _ _ _ _ _ plot result aw Hev). cbn [trace snd].
  rewrite decode_calls_app, evaluate_decode_calls. done.
Qed.

Lemma translate_decodes_at_most_max_length_witness :
  let tokenizer_source := Stub.tokenizer 20 in
  let tokenizer_target := Stub.tokenizer 10 in
  let transformer := Stub.constant 12 3 in
  value (evaluate "hi" tokenizer_source tokenizer_target 4 transformer)
  = Ok ([10; 3; 3; 3; 3], Stub.attention_of [[10; 3; 3; 3]])
  ∧ ∃ ids : list Z,
      decode_calls Target
        (trace (translate "hi" tokenizer_source tokenizer_target 4
                          transformer EmptyString)) !! 0%nat
      = Some ids
      ∧ Z.of_nat (length ids) ≤ 4
      ∧ (length ids < length [10; 3; 3; 3; 3])%nat.
Proof.
  intros tokenizer_source tokenizer_target transformer.
  split; [reflexivity|].
  apply (translate_decodes_at_most_max_length
           "hi" tokenizer_source tokenizer_target 4 transformer EmptyString
           [10; 3; 3; 3; 3] (Stub.attention_of [[10; 3; 3; 3]])).
  reflexivity.
Defined.

(** X11.  When the model selects the end sentinel at the first step,
    [translate] without plotting makes three calls, one encode, one model
    invocation on the lone start sentinel and one decode of the empty id
    list, and returns what the target tokenizer decodes from no ids. *)
Theorem translate_immediate_end {logit weight : Type} `{Logit logit}
    (inp_sentence : string)
    (tokenizer_source tokenizer_target : SubwordTextEncoder)
    (max_length_pred : Z) (transformer : Transformer logit weight)
    (aw : Attention weight) :
  0 < max_length_pred →
  value (predict transformer (encoder_input_of tokenizer_source inp_sentence)
                 [[vocab_size tokenizer_target]])
  = Ok ([[vocab_size tokenizer_target + 1]], aw) →
  translate inp_sentence tokenizer_source tokenizer_target
            max_length_pred transformer EmptyString
  = (Ok (decode tokenizer_target []),
     [Encode Source inp_sentence;
      invocation (encoder_input_of tokenizer_source inp_sentence)
                 [[vocab_size tokenizer_target]];
      Decode Target []]).
Proof.
  intros Hmax Hstep.
  assert (evaluate inp_sentence tokenizer_source tokenizer_target
                   max_length_pred transformer
          = (Ok ([vocab_size tokenizer_target], aw),
             [Encode Source inp_sentence;
              invocation (encoder_input_of tokenizer_source inp_sentence)
                         [[vocab_size tokenizer_target]]])) as Hev.
  { rewrite evaluate_run.
    destruct (Z.to_nat max_length_pred) as [|n] eqn:Hn; [lia|].
    rewrite (loop_stop _ _ _ n _ None aw Hstep). cbn [value trace fst snd].
    by rewrite predict_invocation. }
  rewrite (translate_run _ _ _ _ _ EmptyString [vocab_size tokenizer_target] aw)
    by (by rewrite Hev).
  rewrite Hev. cbn [value trace fst snd bool_decide].
  rewrite filter_cons_False by lia. done.
Qed.

Lemma translate_immediate_end_witness :
  let tokenizer_source := Stub.tokenizer 20 in
  let tokenizer_target := Stub.tokenizer 10 in
  let transformer := Stub.constant 12 11 in
  (0 < 5
   ∧ value (predict transformer (encoder_input_of tokenizer_source "hello")
                    [[vocab_size tokenizer_target]])
     = Ok ([[vocab_size tokenizer_target + 1]], Stub.attention_of [[10]]))
  ∧ translate "hello" tokenizer_source tokenizer_target 5 transformer
              EmptyString
    = (Ok (decode tokenizer_target []),
       [Encode Source "hello";
        invocation (encoder_input_of tokenizer_source "hello")
                   [[vocab_size tokenizer_target]];
        Decode Target []]).
Proof.
  intros tokenizer_source tokenizer_target transformer.
  split; [split; [lia|reflexivity]|].
  apply (translate_immediate_end "hello" tokenizer_source tokenizer_target 5
                                 transformer (Stub.attention_of [[10]]));
    [lia|reflexivity].
Defined.

(** ** What [plot_attention_weights] draws *)



Lemma for_each_trace_Forall {A} (P : event → Prop) (l : list A)
      (body : A → M unit) :
  (∀ x, Forall P (trace (body x))) → Forall P (trace (for_each l body)).
Proof.
  intros Hbody. induction l as [|x l IH]; [constructor|].
  cbn [for_each]. rewrite bind_trace. apply Forall_app. split; [done|].
  destruct (value (body x)); [done|constructor].
Qed.


Section PlotFacts.
Context {weight : Type}.
Variable attention : Attention weight.
Variable sentence : string.
Variable result : list Z.
Variable layer : string.
Variables tokenizer_source tokenizer_target : SubwordTextEncoder.

Local Abbreviation plot_run :=
  (plot_attention_weights attention sentence result layer
                          tokenizer_source tokenizer_target).

(** The body of the loop over the heads. *)
Lemma plot_head_run (head : nat) :
  let body : M unit :=
    _ ← add_subplot (head + 1);
    xs ← mapM (λ i, tok_decode Source tokenizer_source [i])
              (encode tokenizer_source sentence);
    ys ← mapM (λ i, tok_decode Target tokenizer_target [i])
              (filter (λ i, i < vocab_size tokenizer_target) result);
    emit (PltAxes (head + 1) (length (encode tokenizer_source sentence) + 2)
                  (length result) (["<start>"] ++ xs ++ ["<end>"]) ys) in
  body
  = if decide (1 ≤ head + 1 ≤ 8)%nat then
      (Ok tt,
       ((λ i, Decode Source [i]) <$> encode tokenizer_source sentence)
       ++ ((λ i, Decode Target [i])
             <$> filter (λ i, i < vocab_size tokenizer_target) result)
       ++ [PltAxes (head + 1) (length (encode tokenizer_source sentence) + 2)
                   (length result)
                   (["<start>"]
                    ++ ((λ i, decode tokenizer_source [i])
                          <$> encode tokenizer_source sentence)
                    ++ ["<end>"])
                   ((λ i, decode tokenizer_target [i])
                      <$> filter (λ i, i < vocab_size tokenizer_target) result)])
    else (Raise (ValueError "num must be 1 <= num <= 8"), []).
Proof.
  intros body. subst body. unfold add_subplot.
  case_decide; [|done].
  rewrite bind_ret, !mapM_decode.
  rewrite (bind_ok _ _ _ _ eq_refl), (bind_ok _ _ _ _ eq_refl).
  by cbn [value trace fst snd emit].
Qed.

Lemma plot_axes_labelled :
  Forall (axes_labelled tokenizer_source tokenizer_target sentence result)
         (trace plot_run).
Proof.
  unfold plot_attention_weights.
  rewrite bind_trace. cbn [emit value trace fst snd].
  rewrite bind_trace. cbn [tok_encode value trace fst snd].
  repeat (constructor; [done|]).
  rewrite bind_trace. unfold dict_get.
  destruct (attention !! layer) as [att|]; [|constructor].
  cbn [mret M_ret value trace fst snd]. rewrite app_nil_l, bind_trace.
  destruct att as [|att0 [|att1 att]]; try constructor.
  cbn [tf_squeeze mret M_ret value trace fst snd]. rewrite app_nil_l, bind_trace.
  apply Forall_app. split.
  - apply for_each_trace_Forall. intros head. cbv beta.
    rewrite (plot_head_run head). case_decide; [|constructor].
    cbn [trace snd]. rewrite !Forall_app. repeat split.
    + by apply Forall_fmap, Forall_true.
    + by apply Forall_fmap, Forall_true.
    + apply Forall_singleton. unfold axes_labelled.
      split; [lia|]. split; [|done].
      simpl. rewrite length_app, length_fmap. simpl. lia.
  - destruct (value (for_each _ _)); repeat constructor.
Qed.


End PlotFacts.

(** X12.  Whatever its outcome, every axes that [plot_attention_weights]
    draws is one of the eight cells of the grid, has one x tick per x tick
    label, the labels being ["<start>"], the ids of the encoded sentence
    decoded one by one and ["<end>"], has one y tick per id of [result], and
    has one y tick label per id of [result] below the target [vocab_size]:
    never more labels than ticks. *)
Theorem plot_attention_weights_axes {weight : Type}
    (attention : Attention weight) (sentence : string) (result : list Z)
    (layer : string) (tokenizer_source tokenizer_target : SubwordTextEncoder)
    (num xticks yticks : nat) (xticklabels yticklabels : list string) :
  PltAxes num xticks yticks xticklabels yticklabels
  ∈ trace (plot_attention_weights attention sentence result layer
                                  tokenizer_source tokenizer_target) →
  (1 ≤ num ≤ 8)%nat
  ∧ xticks = length xticklabels
  ∧ xticklabels
    = ["<start>"]
      ++ ((λ i, decode tokenizer_source [i]) <$> encode tokenizer_source sentence)
      ++ ["<end>"]
  ∧ yticks = length result
  ∧ yticklabels
    = (λ i, decode tokenizer_target [i])
        <$> filter (λ i, i < vocab_size tokenizer_target) result
  ∧ (length yticklabels ≤ yticks)%nat.
Proof.
  intros Hin.
  pose proof (plot_axes_labelled attention sentence result layer
                tokenizer_source tokenizer_target) as Hall.
  rewrite Forall_forall in Hall. apply Hall in Hin.
  destruct Hin as (Hnum & Hx & Hy & Hxl & Hyl).
  repeat (split; [done|]).
  rewrite Hyl, Hy, length_fmap. apply length_filter.
Qed.

Lemma plot_attention_weights_axes_witness :
  let run :=
    plot_attention_weights (Stub.attention_of [[10; 5; 12; 7]]) "ab"
                           [10; 5; 12; 7] "decoder_layer1_block2"
                           (Stub.tokenizer 20) (Stub.tokenizer 10) in
  PltAxes 1 4 4 ["<start>"; "r"; "s"; "<end>"] ["f"; "h"] ∈ trace run
  ∧ (1 ≤ 1 ≤ 8)%nat
  ∧ 4%nat = length ["<start>"; "r"; "s"; "<end>"]
  ∧ ["<start>"; "r"; "s"; "<end>"]
    = ["<start>"]
      ++ ((λ i, decode (Stub.tokenizer 20) [i])
            <$> encode (Stub.tokenizer 20) "ab")
      ++ ["<end>"]
  ∧ 4%nat = length [10; 5; 12; 7]
  ∧ ["f"; "h"]
    = (λ i, decode (Stub.tokenizer 10) [i])
        <$> filter (λ i, i < vocab_size (Stub.tokenizer 10)) [10; 5; 12; 7]
  ∧ (length ["f"; "h"] ≤ 4)%nat.
Proof.
  intros run.
  assert (PltAxes 1 4 4 ["<start>"; "r"; "s"; "<end>"] ["f"; "h"] ∈ trace run)
    as Hin by (apply list_elem_of_lookup; exists 6%nat; reflexivity).
  split; [exact Hin|].
  exact (plot_attention_weights_axes
           (Stub.attention_of [[10; 5; 12; 7]]) "ab" [10; 5; 12; 7]
           "decoder_layer1_block2" (Stub.tokenizer 20) (Stub.tokenizer 10)
           1 4 4 ["<start>"; "r"; "s"; "<end>"] ["f"; "h"] Hin).
Defined.



(** X14.  On every axes that [translate] draws, the y tick labels are
    strictly fewer than the y ticks: the ticks count the ids returned by
    [evaluate], which hold the start sentinel, and the labels only the ids
    below the target [vocab_size]. *)
Theorem translate_axes_labels {logit weight : Type} `{Logit logit}
    (inp_sentence : string)
    (tokenizer_source tokenizer_target : SubwordTextEncoder)
    (max_length_pred : Z) (transformer : Transformer logit weight)
    (plot : string) (result : list Z) (aw : Attention weight)
    (num xticks yticks : nat) (xticklabels yticklabels : list string) :
  value (evaluate inp_sentence tokenizer_source tokenizer_target
                  max_length_pred transformer) = Ok (result, aw) →
  PltAxes num xticks yticks xticklabels yticklabels
  ∈ trace (translate inp_sentence tokenizer_source tokenizer_target
                     max_length_pred transformer plot) →
  yticks = length result
  ∧ (length yticklabels < yticks)%nat
  ∧ length xticklabels = xticks.
Proof.
  intros Hev Hin.
  destruct (kept_length _ _ _ _ _ result aw Hev) as [Hlt _].
  rewrite (translate_run _ _ _ _ _ plot result aw Hev) in Hin.
  cbn [trace snd] in Hin.
  rewrite elem_of_app, elem_of_cons in Hin.
  destruct Hin as [Hin|[Hin|Hin]]; [| done |].
  - rewrite evaluate_run in Hin. cbn [trace snd] in Hin.
    rewrite elem_of_cons in Hin. destruct Hin as [Hin|Hin]; [done|].
    destruct (loop_trace tokenizer_target transformer
                (encoder_input_of tokenizer_source inp_sentence)
                (Z.to_nat max_length_pred)
                [[vocab_size tokenizer_target]] None) as [Hinv _].
    rewrite Forall_forall in Hinv. by apply Hinv in Hin.
  - case_bool_decide; [by apply elem_of_nil in Hin|].
    pose proof (plot_axes_labelled aw inp_sentence result plot
                  tokenizer_source tokenizer_target) as Hall.
    rewrite Forall_forall in Hall. apply Hall in Hin.
    destruct Hin as (_ & Hx & Hy & _ & Hyl).
    split; [done|]. split; [|done].
    by rewrite Hyl, Hy, length_fmap.
Qed.

Lemma translate_axes_labels_witness :
  let tokenizer_source := Stub.tokenizer 20 in
  let tokenizer_target := Stub.tokenizer 10 in
  let transformer := Stub.scripted 12 [5; 7; 11; 2] in
  let run := translate "ab" tokenizer_source tokenizer_target 5 transformer
                       "decoder_layer1_block2" in
  (value (evaluate "ab" tokenizer_source tokenizer_target 5 transformer)
   = Ok ([10; 5; 7], Stub.attention_of [[10; 5; 7]])
   ∧ PltAxes 1 4 3 ["<start>"; "r"; "s"; "<end>"] ["f"; "h"] ∈ trace run)
  ∧ 3%nat = length [10; 5; 7]
  ∧ (length ["f"; "h"] < 3)%nat
  ∧ length ["<start>"; "r"; "s"; "<end>"] = 4%nat.
Proof.
  intros tokenizer_source tokenizer_target transformer run.
  assert (PltAxes 1 4 3 ["<start>"; "r"; "s"; "<end>"] ["f"; "h"] ∈ trace run)
    as Hin by (apply list_elem_of_lookup; exists 11%nat; reflexivity).
  split; [split; [reflexivity|exact Hin]|].
  exact (translate_axes_labels
           "ab" tokenizer_source tokenizer_target 5 transformer
           "decoder_layer1_block2" [10; 5; 7]
           (Stub.attention_of [[10; 5; 7]])
           1 4 3 ["<start>"; "r"; "s"; "<end>"] ["f"; "h"] eq_refl Hin).
Defined.
